(** * SynapticOS Trinity orchestration: a shallow embedding and its properties

    The development follows the two Python modules that carry behaviour:
    [quantum_orchestrator.py] (task queue, task execution, the adaptive
    state vector) and [trinity_api_server.py] (request fingerprinting, the
    response cache, agent bookkeeping).

    Conventions of the embedding.
    - Python floats are IEEE binary64 numbers: Rocq's primitive floats.
    - Python objects that are mutated through several references (tasks,
      agents) live in a store indexed by locations.
    - Functions that can raise return an [outcome]: either [Returns] or
      [Raises], both with the state reached so far.
    - [datetime.now()] and [uuid.uuid4()] are read from a logical clock and a
      draw counter kept with the state: the n-th reading is the number n.
    - Text is a string of characters with code points below 256;
      pictographs in message constants are left out.
    - Log output is kept where a property speaks about it (the API server);
      the sqlite persistence of the orchestrator, which never feeds back
      into its fields, is left out. *)

From Stdlib Require Import Floats ZArith List Ascii String.
From stdpp Require Import base option list gmap strings sorting pretty relations.

Set Warnings "-inexact-float,-register-all,-abstract-large-number".
Set Default Proof Using "Type".

Open Scope string_scope.

(** ** Python built-ins *)

Module Py.

(** [min(a, b)]: the second argument replaces the first only when it
    compares strictly smaller. *)
Definition min (a b : float) : float :=
  if PrimFloat.ltb b a then b else a.

(** [max(a, b)]: the second argument replaces the first only when it
    compares strictly greater. *)
Definition max (a b : float) : float :=
  if PrimFloat.ltb a b then b else a.

(** The chained comparison [0 <= x <= 1]. *)
Definition in_unit (x : float) : bool :=
  PrimFloat.leb 0 x && PrimFloat.leb x 1.

Inductive exn :=
| AttributeError (msg : string)
| KeyError (msg : string)
| TypeError (msg : string)
| ValueError (msg : string).

(** [str(e)] *)
Definition str_exn (e : exn) : string :=
  match e with
  | AttributeError msg => msg
  | KeyError msg => "'" +:+ msg +:+ "'"
  | TypeError msg => msg
  | ValueError msg => msg
  end.

(** [str(x)] for a value that may be [None]. *)
Definition str_opt (x : option string) : string :=
  match x with Some s => s | None => "None" end.

(** Values read from the environment. *)
Abbreviation datetime := nat.
Abbreviation uuid := nat.

(** References to mutable objects. *)
Abbreviation loc := nat.

(** Structured data as [json.loads] produces it and [json.dumps] accepts
    it.  A dict is the list of its items in insertion order. *)
Inductive json :=
| JNull
| JBool (b : bool)
| JInt (n : Z)
| JFloat (x : float)
| JStr (s : string)
| JList (items : list json)
| JDict (items : list (string * json)).

Definition dict := list (string * json).

(** [d.get(key)] *)
Fixpoint dict_get (key : string) (d : dict) : option json :=
  match d with
  | [] => None
  | (k, v) :: d' => if decide (k = key) then Some v else dict_get key d'
  end.

(** Computations over a state [S] that return or raise. *)
Inductive outcome (S A : Type) :=
| Returns (a : A) (s : S)
| Raises (e : exn) (s : S).
Arguments Returns {S A} a s.
Arguments Raises {S A} e s.

Definition M (S A : Type) := S → outcome S A.

Definition ret {S A} (a : A) : M S A := λ s, Returns a s.
Definition raise {S A} (e : exn) : M S A := λ s, Raises e s.
Definition bind {S A B} (m : M S A) (k : A → M S B) : M S B :=
  λ s, match m s with
       | Returns a s' => k a s'
       | Raises e s' => Raises e s'
       end.
Definition get {S} : M S S := λ s, Returns s s.
Definition modify {S} (f : S → S) : M S unit := λ s, Returns tt (f s).

(** [try: body / except Exception as e: handler(e)] *)
Definition try_except {S A} (body : M S A) (handler : exn → M S A) : M S A :=
  λ s, match body s with
       | Returns a s' => Returns a s'
       | Raises e s' => handler e s'
       end.

(** The state a computation ends in, however it ends. *)
Definition final {S A} (o : outcome S A) : S :=
  match o with Returns _ s => s | Raises _ s => s end.

End Py.

Import Py.

Notation "x <- m ;; k" := (Py.bind m (λ x, k))
  (at level 100, m at next level, right associativity, only parsing).
Notation "m >>> k" := (Py.bind m (λ _, k))
  (at level 100, right associativity, only parsing).

(** ** quantum_orchestrator.py *)

Module Quantum.

(** [class AIModel(Enum)] *)
Inductive AIModel :=
| CLAUDE_SONNET
| GPT4_TURBO
| GEMINI_PRO
| LOCAL_LLAMA
| TRINITY_HYBRID.

Definition AIModel_value (m : AIModel) : string :=
  match m with
  | CLAUDE_SONNET => "claude-3-5-sonnet-20241022"
  | GPT4_TURBO => "gpt-4-turbo-preview"
  | GEMINI_PRO => "gemini-pro"
  | LOCAL_LLAMA => "llama-3.1-70b"
  | TRINITY_HYBRID => "trinity-consciousness-v1"
  end.

(** [@dataclass class QuantumState] *)
Record QuantumState := mkQuantumState {
  consciousness_level : float;
  quantum_coherence : float;
  neural_activity : gmap string float;
  memory_coherence : float;
  learning_velocity : float;
  timestamp : datetime;
  state_id : uuid
}.

(** [@dataclass class AITask].  The dataclass does not check its
    annotations, and the source itself uses [None] for a field that was not
    given ([created_at]).  The fields that the orchestrator formats,
    serialises or takes an attribute of ([task_type], [input_data],
    [metadata], [model_preference]) may therefore hold [None]; the others
    carry their annotated type. *)
Record AITask := mkAITask {
  task_id : string;
  task_type : option string;
  priority : Z;
  input_data : option dict;
  model_preference : option AIModel;
  deadline : option datetime;
  dependencies : list string;
  metadata : option dict;
  status : string;
  created_at : datetime
}.

Definition set_status (st : string) (t : AITask) : AITask :=
  mkAITask (task_id t) (task_type t) (priority t) (input_data t)
    (model_preference t) (deadline t) (dependencies t) (metadata t)
    st (created_at t).

(** The dict an inference backend returns; the two state readings are
    present in the answer of the hybrid backend only. *)
Record InferenceResult := mkInferenceResult {
  r_model : string;
  r_output : string;
  r_confidence : float;
  r_quantum_coherence : option float;
  r_consciousness_level : option float
}.

(** The two shapes of a [result_store] entry. *)
Inductive StoredResult :=
| Completed (result : InferenceResult) (completed_at : datetime)
    (snapshot : QuantumState)
| Failed (error : string) (failed_at : datetime).

(** The fields of [QuantumOrchestrator] that the orchestration reads or
    writes, with the task objects, the clock and the uuid draws. *)
Record Orchestrator := mkOrchestrator {
  task_queue : list loc;
  result_store : gmap string StoredResult;
  active_tasks : gmap string loc;
  quantum_state : option QuantumState;
  is_running : bool;
  tasks : list AITask;
  clock : nat;
  draws : nat
}.

Definition set_task_queue (q : list loc) (s : Orchestrator) : Orchestrator :=
  mkOrchestrator q (result_store s) (active_tasks s) (quantum_state s)
    (is_running s) (tasks s) (clock s) (draws s).

Definition set_result_store (r : gmap string StoredResult) (s : Orchestrator)
  : Orchestrator :=
  mkOrchestrator (task_queue s) r (active_tasks s) (quantum_state s)
    (is_running s) (tasks s) (clock s) (draws s).

Definition set_active_tasks (a : gmap string loc) (s : Orchestrator)
  : Orchestrator :=
  mkOrchestrator (task_queue s) (result_store s) a (quantum_state s)
    (is_running s) (tasks s) (clock s) (draws s).

Definition set_quantum_state (q : option QuantumState) (s : Orchestrator)
  : Orchestrator :=
  mkOrchestrator (task_queue s) (result_store s) (active_tasks s) q
    (is_running s) (tasks s) (clock s) (draws s).

Definition set_is_running (b : bool) (s : Orchestrator) : Orchestrator :=
  mkOrchestrator (task_queue s) (result_store s) (active_tasks s)
    (quantum_state s) b (tasks s) (clock s) (draws s).

Definition set_tasks (h : list AITask) (s : Orchestrator) : Orchestrator :=
  mkOrchestrator (task_queue s) (result_store s) (active_tasks s)
    (quantum_state s) (is_running s) h (clock s) (draws s).

Definition set_clock (c : nat) (s : Orchestrator) : Orchestrator :=
  mkOrchestrator (task_queue s) (result_store s) (active_tasks s)
    (quantum_state s) (is_running s) (tasks s) c (draws s).

Definition set_draws (d : nat) (s : Orchestrator) : Orchestrator :=
  mkOrchestrator (task_queue s) (result_store s) (active_tasks s)
    (quantum_state s) (is_running s) (tasks s) (clock s) d.

Abbreviation Op := (M Orchestrator).

(** [datetime.now()] *)
Definition datetime_now : Op datetime :=
  λ s, Returns (clock s) (set_clock (S (clock s)) s).

(** [uuid.uuid4()] *)
Definition uuid4 : Op uuid :=
  λ s, Returns (draws s) (set_draws (S (draws s)) s).

(** [task.status = st] *)
Definition assign_status (task : loc) (st : string) : Op unit :=
  modify (λ s, set_tasks (alter (set_status st) task (tasks s)) s).

(** [QuantumOrchestrator.__init__], as far as the fields above go. *)
Definition __init__ : Orchestrator :=
  mkOrchestrator [] ∅ ∅ None false [] 0 0.

(** [initialize_quantum_state] *)
Definition initial_neural_activity : gmap string float :=
  <["prefrontal_cortex" := 0.6%float]>
    (<["hippocampus" := 0.4%float]>
       (<["amygdala" := 0.3%float]>
          (<["neural_networks" := 0.8%float]> ∅))).

Definition initialize_quantum_state : Op QuantumState :=
  now <- datetime_now;;
  id <- uuid4;;
  ret (mkQuantumState 0.7 0.8 initial_neural_activity 0.75 0.1 now id).

(** [start_orchestrator], up to the point where it enters the loop. *)
Definition start_orchestrator : Op unit :=
  modify (set_is_running true) >>>
  q <- initialize_quantum_state;;
  modify (set_quantum_state (Some q)).

(** *** The task queue: [asyncio.Queue], a FIFO queue without bound *)

Definition Queue_put (task : loc) (q : list loc) : list loc := q ++ [task].

Definition Queue_get (q : list loc) : option (loc * list loc) :=
  match q with
  | [] => None
  | task :: rest => Some (task, rest)
  end.

(** The tasks that successive [get]s yield until the queue is empty. *)
Fixpoint Queue_drain (fuel : nat) (q : list loc) : list loc :=
  match fuel with
  | 0 => []
  | S n =>
      match Queue_get q with
      | None => []
      | Some (task, rest) => task :: Queue_drain n rest
      end
  end.

(** [submit_task].  The caller's task object enters the store here; the
    unbounded queue never makes [put] wait.  The log line is left out. *)
Definition submit_task (task : AITask) : Op string :=
  s <- get;;
  let l := length (tasks s) in
  modify (set_tasks (tasks s ++ [task])) >>>
  modify (λ s, set_task_queue (Queue_put l (task_queue s)) s) >>>
  ret (task_id task).

(** [get_task_result] *)
Definition get_task_result (id : string) (s : Orchestrator)
  : option StoredResult :=
  result_store s !! id.

(** *** Inference backends *)

(** [self.quantum_state.<attr>] *)
Definition read_quantum_state (attr : string) : Op QuantumState :=
  s <- get;;
  match quantum_state s with
  | None =>
      raise (AttributeError
               ("'NoneType' object has no attribute '" +:+ attr +:+ "'"))
  | Some q => ret q
  end.

Definition _trinity_hybrid_inference (t : AITask) : Op InferenceResult :=
  q <- read_quantum_state "quantum_coherence";;
  ret (mkInferenceResult "trinity-consciousness-v1"
         ("Trinity consciousness response for " +:+ str_opt (task_type t))
         0.95 (Some (quantum_coherence q)) (Some (consciousness_level q))).

Definition _claude_inference (t : AITask) : Op InferenceResult :=
  ret (mkInferenceResult "claude-3-5-sonnet"
         ("Claude response for " +:+ str_opt (task_type t)) 0.88 None None).

Definition _local_llama_inference (t : AITask) : Op InferenceResult :=
  ret (mkInferenceResult "llama-3.1-70b"
         ("Llama response for " +:+ str_opt (task_type t)) 0.82 None None).

Definition _fallback_inference (t : AITask) : Op InferenceResult :=
  ret (mkInferenceResult "fallback"
         ("Fallback response for " +:+ str_opt (task_type t)) 0.60 None None).

(** [_route_to_ai_model]: a chain of [==] tests on [task.model_preference],
    which a value that is no member of the enumeration fails one by one. *)
Definition _route_to_ai_model (t : AITask) : Op InferenceResult :=
  match model_preference t with
  | Some TRINITY_HYBRID => _trinity_hybrid_inference t
  | Some CLAUDE_SONNET => _claude_inference t
  | Some LOCAL_LLAMA => _local_llama_inference t
  | _ => _fallback_inference t
  end.

(** [_learn_from_execution]: draws an id and a time for the row it writes
    to sqlite, and swallows whatever the database raises. *)
Definition _learn_from_execution (t : AITask) (result : InferenceResult)
  : Op unit :=
  _ <- uuid4;;
  _ <- datetime_now;;
  ret tt.

(** *** Task execution *)

(** [task.model_preference.value], which the first statement of
    [_execute_ai_task] formats into its log line. *)
Definition model_value (t : AITask) : Op string :=
  match model_preference t with
  | Some m => ret (AIModel_value m)
  | None => raise (AttributeError "'NoneType' object has no attribute 'value'")
  end.

Definition store_result (id : string) (r : StoredResult) : Op unit :=
  modify (λ s, set_result_store (<[id := r]> (result_store s)) s).

(** The two assignments of [_execute_ai_task] before its [try]. *)
Definition mark_running (task : loc) (t : AITask) : Op unit :=
  modify (λ s, set_active_tasks (<[task_id t := task]> (active_tasks s)) s) >>>
  assign_status task "running".

(** The rest of the [try] block once the backend has answered. *)
Definition record_success (task : loc) (t : AITask) (result : InferenceResult)
  : Op unit :=
  now <- datetime_now;;
  q <- read_quantum_state "to_dict";;
  store_result (task_id t) (Completed result now q) >>>
  assign_status task "completed" >>>
  _learn_from_execution t result.

(** The [except Exception as e] block. *)
Definition record_failure (task : loc) (t : AITask) (e : exn) : Op unit :=
  assign_status task "failed" >>>
  now <- datetime_now;;
  store_result (task_id t) (Failed (str_exn e) now).

(** [_execute_ai_task], with the coroutine that it awaits for the result
    as a parameter.  The log line comes first and is outside the [try]: of
    it the reading of [task.model_preference.value] is kept.  A location
    outside the store stands for no object and is skipped. *)
Definition execute_with (route : AITask → Op InferenceResult) (task : loc)
  : Op unit :=
  s <- get;;
  match tasks s !! task with
  | None => ret tt
  | Some t =>
      _ <- model_value t;;
      mark_running task t >>>
      try_except
        (result <- route t;;
         record_success task t result)
        (record_failure task t)
  end.

(** [_execute_ai_task]: the source awaits [self._route_to_ai_model(task)]. *)
Definition _execute_ai_task : loc → Op unit :=
  execute_with _route_to_ai_model.

(** [_process_task_queue]: [while not self.task_queue.empty()].  Executing a
    task never enqueues one, so the length of the queue bounds the number
    of rounds.  What [_execute_ai_task] raises leaves the loop and the
    function: the handler is for [asyncio.QueueEmpty] only, which [get]
    on a queue that is not empty does not raise. *)
Fixpoint process_rounds (fuel : nat) : Op unit :=
  match fuel with
  | 0 => ret tt
  | S n =>
      s <- get;;
      match Queue_get (task_queue s) with
      | None => ret tt
      | Some (task, rest) =>
          modify (set_task_queue rest) >>>
          _execute_ai_task task >>>
          process_rounds n
      end
  end.

Definition _process_task_queue : Op unit :=
  s <- get;;
  process_rounds (length (task_queue s)).

(** *** The adaptive state *)

(** [_update_quantum_state], the update driven by task activity. *)
Definition scale_velocity (q : QuantumState) : QuantumState :=
  mkQuantumState (consciousness_level q) (quantum_coherence q)
    (neural_activity q) (memory_coherence q)
    (Py.min 1.0 (learning_velocity q * 1.001)) (timestamp q) (state_id q).

Definition _update_quantum_state : Op unit :=
  s <- get;;
  let active_count := size (active_tasks s) in
  if decide (0 < active_count) then
    q <- read_quantum_state "learning_velocity";;
    modify (set_quantum_state (Some (scale_velocity q)))
  else ret tt.

(** [_evolve_consciousness] *)
Definition _evolve_consciousness : Op unit := ret tt.

(** The body of the loop over the regions in
    [_update_consciousness_metrics]; the bounds [0] and [1] of the source
    are integers, which compare with floats as [0.0] and [1.0] do. *)
Definition homeostatic (current : float) : float :=
  let delta := ((0.5 - current) * 0.01)%float in
  Py.max 0 (Py.min 1 (current + delta)).

Definition regulate (na : gmap string float) (region : string)
  : gmap string float :=
  match na !! region with
  | Some current => <[region := homeostatic current]> na
  | None => na
  end.

(** [_update_consciousness_metrics], the update driven by the timer. *)
Definition drift (now : datetime) (q : QuantumState) : QuantumState :=
  mkQuantumState
    (Py.min 1.0 (consciousness_level q + 0.001))
    (Py.min 1.0 (quantum_coherence q + 0.0005))
    (foldl regulate (neural_activity q)
       (map fst (map_to_list (neural_activity q))))
    (memory_coherence q) (learning_velocity q) now (state_id q).

Definition _update_consciousness_metrics : Op unit :=
  s <- get;;
  match quantum_state s with
  | None => ret tt
  | Some q =>
      now <- datetime_now;;
      modify (set_quantum_state (Some (drift now q)))
  end.

(** *** Retiring tasks and the loop *)

Definition terminal (s : Orchestrator) (task : loc) : bool :=
  match tasks s !! task with
  | Some t => bool_decide (status t = "completed" ∨ status t = "failed")
  | None => false
  end.

Definition _cleanup_tasks : Op unit :=
  s <- get;;
  let completed_tasks :=
    map fst
      (List.filter (λ kv, terminal s (snd kv)) (map_to_list (active_tasks s)))
  in
  modify (λ s, set_active_tasks
                 (foldl (λ a id, delete id a) (active_tasks s) completed_tasks)
                 s).

(** One round of [while self.is_running] in [_orchestration_loop]; the
    handler logs and sleeps, and the loop goes on with the next round. *)
Definition orchestration_round : Op unit :=
  try_except
    (_process_task_queue >>>
     _update_quantum_state >>>
     _evolve_consciousness >>>
     _cleanup_tasks)
    (λ e, ret tt).

Fixpoint _orchestration_loop (rounds : nat) : Op unit :=
  match rounds with
  | 0 => ret tt
  | S n =>
      s <- get;;
      if is_running s then orchestration_round >>> _orchestration_loop n
      else ret tt
  end.


(** [get_consciousness_state] *)
Definition get_consciousness_state (s : Orchestrator) : option QuantumState :=
  quantum_state s.

(** [_persist_quantum_state]: one sqlite statement inside a [try] whose
    handler logs; no field of the orchestrator is written. *)
Definition _persist_quantum_state : Op unit := ret tt.

(** One round of [while self.is_running] in [_consciousness_monitor_loop];
    the handler logs and sleeps. *)
Definition monitor_round : Op unit :=
  try_except
    (_update_consciousness_metrics >>> _persist_quantum_state)
    (λ e, ret tt).

Fixpoint _consciousness_monitor_loop (rounds : nat) : Op unit :=
  match rounds with
  | 0 => ret tt
  | S n =>
      s <- get;;
      if is_running s then monitor_round >>> _consciousness_monitor_loop n
      else ret tt
  end.

End Quantum.

(** ** trinity_api_server.py *)

Module Trinity.

(** *** Text *)

(** [c.lower()] on code points below 256. *)
Definition lower_char (c : ascii) : ascii :=
  let n := Ascii.nat_of_ascii c in
  if bool_decide ((65 ≤ n ≤ 90)%nat ∨ ((192 ≤ n ≤ 222)%nat ∧ n ≠ 215%nat))
  then Ascii.ascii_of_nat (n + 32)
  else c.

(** [s.lower()] *)
Fixpoint lower (s : string) : string :=
  match s with
  | EmptyString => EmptyString
  | String c s' => String (lower_char c) (lower s')
  end.

(** [s.upper()], for the unaccented names it is applied to. *)
Definition upper_char (c : ascii) : ascii :=
  let n := Ascii.nat_of_ascii c in
  if bool_decide (97 ≤ n ≤ 122)%nat then Ascii.ascii_of_nat (n - 32) else c.

Fixpoint upper (s : string) : string :=
  match s with
  | EmptyString => EmptyString
  | String c s' => String (upper_char c) (upper s')
  end.

(** [keyword in prompt] *)
Fixpoint contains (keyword prompt : string) : bool :=
  String.prefix keyword prompt ||
  match prompt with
  | EmptyString => false
  | String _ rest => contains keyword rest
  end.

(** [s[:n]] *)
Fixpoint str_take (n : nat) (s : string) : string :=
  match n, s with
  | S n', String c s' => String c (str_take n' s')
  | _, _ => EmptyString
  end.

(** *** [json.dumps(obj, sort_keys=True)] *)

Definition dquote : ascii := Ascii.ascii_of_nat 34.
Definition backslash : ascii := Ascii.ascii_of_nat 92.

Definition hex_digit (n : nat) : ascii :=
  match String.get n "0123456789abcdef" with
  | Some c => c
  | None => "0"%char
  end.

(** One character under [ensure_ascii]: the short escapes, the printable
    range as it is, anything else as a [u] escape of four hex digits. *)
Definition escape_char (c : ascii) : string :=
  let n := Ascii.nat_of_ascii c in
  if decide (n = 34%nat) then String backslash (String dquote "")
  else if decide (n = 92%nat) then String backslash (String backslash "")
  else if decide (n = 8%nat) then String backslash "b"
  else if decide (n = 12%nat) then String backslash "f"
  else if decide (n = 10%nat) then String backslash "n"
  else if decide (n = 13%nat) then String backslash "r"
  else if decide (n = 9%nat) then String backslash "t"
  else if bool_decide (32 ≤ n ≤ 126)%nat then String c ""
  else String backslash
         ("u00" +:+ String (hex_digit (n / 16)) (String (hex_digit (n mod 16)) "")).

Fixpoint escape (s : string) : string :=
  match s with
  | EmptyString => EmptyString
  | String c s' => escape_char c +:+ escape s'
  end.

Definition encode_str (s : string) : string :=
  String dquote (escape s) +:+ String dquote "".

(** The order in which [sort_keys] puts the items of a dict: by key. *)
Definition key_le {A} (kv1 kv2 : string * A) : Prop :=
  String.le (fst kv1) (fst kv2).

Global Instance key_le_dec {A} : RelDecision (@key_le A).
Proof. intros kv1 kv2. unfold key_le. apply _. Defined.

Section Fingerprint.

(** [float.__repr__] and [hashlib.md5(...).hexdigest()] come from the
    Python library. *)
Variable float_repr : float → string.
Variable md5_hexdigest : string → string.

(** The encoder sorts the items of a dict and then encodes each value; the
    order depends on the keys only, so the values are encoded first here. *)
Fixpoint dumps (obj : json) : string :=
  match obj with
  | JNull => "null"
  | JBool true => "true"
  | JBool false => "false"
  | JInt n => pretty n
  | JFloat x => float_repr x
  | JStr s => encode_str s
  | JList items => "[" +:+ String.concat ", " (map dumps items) +:+ "]"
  | JDict items =>
      let encoded := map (λ '(k, v), (k, dumps v)) items in
      "{" +:+
      String.concat ", "
        (map (λ kv, encode_str (fst kv) +:+ ": " +:+ snd kv)
           (merge_sort key_le encoded)) +:+
      "}"
  end.

(** [hashlib.md5(json.dumps(request_data, sort_keys=True).encode()).hexdigest()] *)
Definition cache_key (request_data : dict) : string :=
  md5_hexdigest (dumps (JDict request_data)).

End Fingerprint.

(** The same value up to the order of the fields of its dicts. *)
Inductive reordered : json → json → Prop :=
| reordered_same obj : reordered obj obj
| reordered_list items1 items2 :
    Forall2 reordered items1 items2 →
    reordered (JList items1) (JList items2)
| reordered_dict items1 items items2 :
    items1 ≡ₚ items →
    Forall2 (λ kv1 kv2, fst kv1 = fst kv2 ∧ reordered (snd kv1) (snd kv2))
      items items2 →
    reordered (JDict items1) (JDict items2).

(** The keys of a Python dict are distinct, at every depth. *)
Fixpoint distinct_keys (obj : json) : bool :=
  match obj with
  | JList items => forallb distinct_keys items
  | JDict items =>
      bool_decide (NoDup (map fst items)) &&
      forallb (λ '(_, v), distinct_keys v) items
  | _ => true
  end.

(** *** Agents and the orchestrator *)

Inductive AgentStatus :=
| OFFLINE
| INITIALIZING
| ONLINE
| PROCESSING
| ERROR.

(** [@dataclass class TrinityAgent] *)
Record TrinityAgent := mkTrinityAgent {
  name : string;
  agent_type : string;
  status : AgentStatus;
  last_heartbeat : datetime;
  processed_requests : Z;
  error_count : Z;
  capabilities : list string
}.

(** [@dataclass class ConsciousnessState] *)
Record ConsciousnessState := mkConsciousnessState {
  awareness_level : float;
  quantum_coherence : float;
  neural_plasticity : float;
  memory_utilization : float;
  active_agents : Z;
  total_processed : Z;
  uptime_seconds : float;
  manhattan_protocol_active : bool
}.

(** The dict that [_generate_response] builds. *)
Record Response := mkResponse {
  agent : string;
  response : string;
  timestamp : datetime;
  processing_time : float;
  confidence : float;
  capabilities_used : list string
}.

Inductive Level := INFO | WARNING | ERROR_LEVEL.

(** [TrinityAIOrchestrator], with the agent objects, the records written
    to the logger (oldest first), the clock and the uuid draws. *)
Record Orchestrator := mkOrchestrator {
  agents : gmap string loc;
  consciousness_state : ConsciousnessState;
  response_cache : gmap string Response;
  objects : list TrinityAgent;
  log : list (Level * string);
  clock : nat;
  draws : nat
}.

Definition set_agents (a : gmap string loc) (s : Orchestrator) : Orchestrator :=
  mkOrchestrator a (consciousness_state s) (response_cache s) (objects s)
    (log s) (clock s) (draws s).

Definition set_consciousness_state (c : ConsciousnessState) (s : Orchestrator)
  : Orchestrator :=
  mkOrchestrator (agents s) c (response_cache s) (objects s) (log s)
    (clock s) (draws s).

Definition set_response_cache (c : gmap string Response) (s : Orchestrator)
  : Orchestrator :=
  mkOrchestrator (agents s) (consciousness_state s) c (objects s) (log s)
    (clock s) (draws s).

Definition set_objects (o : list TrinityAgent) (s : Orchestrator)
  : Orchestrator :=
  mkOrchestrator (agents s) (consciousness_state s) (response_cache s) o
    (log s) (clock s) (draws s).

Definition set_log (l : list (Level * string)) (s : Orchestrator)
  : Orchestrator :=
  mkOrchestrator (agents s) (consciousness_state s) (response_cache s)
    (objects s) l (clock s) (draws s).

Definition set_clock (c : nat) (s : Orchestrator) : Orchestrator :=
  mkOrchestrator (agents s) (consciousness_state s) (response_cache s)
    (objects s) (log s) c (draws s).

Definition set_draws (d : nat) (s : Orchestrator) : Orchestrator :=
  mkOrchestrator (agents s) (consciousness_state s) (response_cache s)
    (objects s) (log s) (clock s) d.

Abbreviation Op := (M Orchestrator).

Definition datetime_now : Op datetime :=
  λ s, Returns (clock s) (set_clock (S (clock s)) s).

Definition uuid4 : Op uuid :=
  λ s, Returns (draws s) (set_draws (S (draws s)) s).

(** [logger.info], [logger.error] *)
Definition logger (lvl : Level) (msg : string) : Op unit :=
  modify (λ s, set_log (log s ++ [(lvl, msg)]) s).

(** Field updates of an agent object. *)
Definition with_status (st : AgentStatus) (a : TrinityAgent) : TrinityAgent :=
  mkTrinityAgent (name a) (agent_type a) st (last_heartbeat a)
    (processed_requests a) (error_count a) (capabilities a).

Definition with_last_heartbeat (t : datetime) (a : TrinityAgent)
  : TrinityAgent :=
  mkTrinityAgent (name a) (agent_type a) (status a) t
    (processed_requests a) (error_count a) (capabilities a).

Definition incr_processed_requests (a : TrinityAgent) : TrinityAgent :=
  mkTrinityAgent (name a) (agent_type a) (status a) (last_heartbeat a)
    (processed_requests a + 1) (error_count a) (capabilities a).

Definition incr_error_count (a : TrinityAgent) : TrinityAgent :=
  mkTrinityAgent (name a) (agent_type a) (status a) (last_heartbeat a)
    (processed_requests a) (error_count a + 1) (capabilities a).

Definition update_agent (f : TrinityAgent → TrinityAgent) (l : loc) : Op unit :=
  modify (λ s, set_objects (alter f l (objects s)) s).

Definition incr_total_processed (c : ConsciousnessState) : ConsciousnessState :=
  mkConsciousnessState (awareness_level c) (quantum_coherence c)
    (neural_plasticity c) (memory_utilization c) (active_agents c)
    (total_processed c + 1) (uptime_seconds c) (manhattan_protocol_active c).

Definition with_active_agents (n : Z) (c : ConsciousnessState)
  : ConsciousnessState :=
  mkConsciousnessState (awareness_level c) (quantum_coherence c)
    (neural_plasticity c) (memory_utilization c) n
    (total_processed c) (uptime_seconds c) (manhattan_protocol_active c).

(** [TrinityAIOrchestrator.__init__] *)
Definition __init__ : Orchestrator :=
  mkOrchestrator ∅
    (mkConsciousnessState 1.0 0.95 0.88 0.15 0 0 0.0 true)
    ∅ [] [] 0 0.

(** [initialize_agents] *)
Definition agent_configs : list (string * string * list string) :=
  [ ("claude", "strategic_reasoning",
     ["analysis"; "reasoning"; "code_generation"; "strategic_planning"]);
    ("gemini", "creative_synthesis",
     ["creativity"; "multimodal"; "synthesis"; "innovation"]);
    ("perplexity", "knowledge_integration",
     ["search"; "fact_checking"; "knowledge_synthesis"; "research"]) ].

Definition initialize_agent (config : string * string * list string)
  : Op unit :=
  let '(nm, ty, caps) := config in
  created <- datetime_now;;
  s <- get;;
  let l := length (objects s) in
  modify (set_objects
            (objects s ++ [mkTrinityAgent nm ty INITIALIZING created 0 0 caps])) >>>
  update_agent (with_status ONLINE) l >>>
  beat <- datetime_now;;
  update_agent (with_last_heartbeat beat) l >>>
  modify (λ s, set_agents (<[nm := l]> (agents s)) s) >>>
  logger INFO (upper nm +:+ " agent: ONLINE").

Fixpoint for_each {A} (body : A → Op unit) (xs : list A) : Op unit :=
  match xs with
  | [] => ret tt
  | x :: xs' => body x >>> for_each body xs'
  end.

Definition initialize_agents : Op unit :=
  logger INFO "Initializing Trinity AI agents with Manhattan Project protocols" >>>
  for_each initialize_agent agent_configs >>>
  modify (λ s, set_consciousness_state
                 (with_active_agents (Z.of_nat (size (agents s)))
                    (consciousness_state s)) s) >>>
  logger INFO "Trinity AI orchestration: FULLY OPERATIONAL".

(** *** Request processing *)

(** [type(obj).__name__] *)
Definition type_name (obj : json) : string :=
  match obj with
  | JNull => "NoneType"
  | JBool _ => "bool"
  | JInt _ => "int"
  | JFloat _ => "float"
  | JStr _ => "str"
  | JList _ => "list"
  | JDict _ => "dict"
  end.

(** [any(keyword in prompt for keyword in keywords)] *)
Definition any_in (keywords : list string) (prompt : string) : bool :=
  existsb (λ keyword, contains keyword prompt) keywords.

(** [_route_request] *)
Definition _route_request (request_data : dict) : Op string :=
  prompt <-
    match dict_get "prompt" request_data with
    | None => ret (lower "")
    | Some (JStr text) => ret (lower text)
    | Some other =>
        raise (AttributeError
                 ("'" +:+ type_name other +:+
                  "' object has no attribute 'lower'"))
    end;;
  if any_in ["analyze"; "strategy"; "plan"; "code"] prompt then ret "claude"
  else if any_in ["creative"; "image"; "design"; "art"] prompt then ret "gemini"
  else if any_in ["search"; "fact"; "research"; "find"] prompt
  then ret "perplexity"
  else ret "claude".

(** [responses.get(agent_name, "Unknown agent response")] *)
Definition response_text (agent_name prompt : string) : string :=
  if decide (agent_name = "claude")
  then "Claude Strategic Analysis: " +:+ str_take 100 prompt +:+ "..."
  else if decide (agent_name = "gemini")
  then "Gemini Creative Synthesis: " +:+ str_take 100 prompt +:+ "..."
  else if decide (agent_name = "perplexity")
  then "Perplexity Knowledge Integration: " +:+ str_take 100 prompt +:+ "..."
  else "Unknown agent response".

(** [_generate_response].  A prompt that is not text does not get here
    through [process_request], where [_route_request] has raised on it; on
    such a prompt the slice raises for every type but a list. *)
Definition _generate_response (agent_name : string) (request_data : dict)
  : Op Response :=
  s <- get;;
  match agents s !! agent_name with
  | None => raise (KeyError agent_name)
  | Some l =>
      prompt <-
        match dict_get "prompt" request_data with
        | None => ret ""
        | Some (JStr text) => ret text
        | Some other =>
            raise (TypeError
                     ("'" +:+ type_name other +:+
                      "' object is not subscriptable"))
        end;;
      now <- datetime_now;;
      let caps := default [] (capabilities <$> objects s !! l) in
      ret (mkResponse agent_name (response_text agent_name prompt) now
             0.5 0.95 (take 2 caps))
  end.

(** What [process_request] holds while it waits in [asyncio.sleep]: other
    requests run in between. *)
Record Pending := mkPending {
  request_id : uuid;
  pending_key : string;
  agent_name : string;
  agent_ref : loc;
  request_data : dict
}.

Inductive Started :=
| CacheHit (cached : Response)
| Suspended (p : Pending).

Section Processing.

Variable float_repr : float → string.
Variable md5_hexdigest : string → string.

(** [process_request] up to [await asyncio.sleep(processing_time)]. *)
Definition process_request_begin (data : dict) : Op Started :=
  id <- uuid4;;
  _ <- datetime_now;;
  let key := cache_key float_repr md5_hexdigest data in
  s <- get;;
  match response_cache s !! key with
  | Some cached =>
      logger INFO ("Cache hit for request " +:+ pretty id) >>>
      ret (CacheHit cached)
  | None =>
      nm <- _route_request data;;
      match agents s !! nm with
      | None => raise (ValueError ("Agent " +:+ nm +:+ " not available"))
      | Some l =>
          update_agent (with_status PROCESSING) l >>>
          beat <- datetime_now;;
          update_agent (with_last_heartbeat beat) l >>>
          ret (Suspended (mkPending id key nm l data))
      end
  end.

(** [process_request] from the point where the sleep is over. *)
Definition process_request_resume (p : Pending) : Op Response :=
  try_except
    (answer <- _generate_response (agent_name p) (request_data p);;
     update_agent incr_processed_requests (agent_ref p) >>>
     update_agent (with_status ONLINE) (agent_ref p) >>>
     modify (λ s, set_consciousness_state
                    (incr_total_processed (consciousness_state s)) s) >>>
     modify (λ s, set_response_cache
                    (<[pending_key p := answer]> (response_cache s)) s) >>>
     logger INFO ("Request " +:+ pretty (request_id p) +:+
                  " processed by " +:+ agent_name p) >>>
     ret answer)
    (λ e,
     update_agent incr_error_count (agent_ref p) >>>
     update_agent (with_status ERROR) (agent_ref p) >>>
     logger ERROR_LEVEL ("Error processing request " +:+
                         pretty (request_id p) +:+ ": " +:+ str_exn e) >>>
     raise e).

(** [process_request] when nothing else runs during its sleep. *)
Definition process_request (data : dict) : Op Response :=
  started <- process_request_begin data;;
  match started with
  | CacheHit cached => ret cached
  | Suspended p => process_request_resume p
  end.

End Processing.

(** [handle_ai_request], from the parsed body on: a JSON object.  The
    answer is the HTTP status with the body, a response or
    [{'error': str(e)}]. *)
Definition handle_ai_request (float_repr : float → string)
    (md5_hexdigest : string → string) (data : dict)
  : Op (nat * (Response + string)) :=
  try_except
    (answer <- process_request float_repr md5_hexdigest data;;
     ret (200, inl answer))
    (λ e, ret (500, inr (str_exn e))).

(** [agent.status in [AgentStatus.ONLINE, AgentStatus.PROCESSING]] *)
Definition serving (st : AgentStatus) : bool :=
  match st with
  | ONLINE | PROCESSING => true
  | _ => false
  end.

(** The dict that [health_check] returns. *)
Record Health := mkHealth {
  health_status : string;
  agents_online : nat;
  total_agents : nat;
  uptime : nat;
  manhattan_protocol : bool
}.

(** [sum(1 for agent in self.agents.values() if ...)] *)
Definition healthy_agents (s : Orchestrator) : nat :=
  length
    (List.filter
       (λ kv, match objects s !! snd kv with
              | Some a => serving (status a)
              | None => false
              end)
       (map_to_list (agents s))).

(** [health_check].  [self.start_time] is set when the orchestrator is made
    and never written again; it is passed in, and the up-time is the
    difference of the two clock readings. *)
Definition health_check (start_time : datetime) : Op Health :=
  s <- get;;
  let n := healthy_agents s in
  let is_healthy :=
    bool_decide (2 ≤ n)%nat &&
    PrimFloat.ltb 0.5 (awareness_level (consciousness_state s)) &&
    PrimFloat.ltb 0.8 (quantum_coherence (consciousness_state s)) in
  now <- datetime_now;;
  ret (mkHealth (if is_healthy then "healthy" else "degraded") n
         (size (agents s)) (now - start_time)
         (manhattan_protocol_active (consciousness_state s))).

End Trinity.

(** * Vocabulary of the properties *)

(** [x, f x, ..., f^n x] *)
Fixpoint orbit {A} (f : A → A) (n : nat) (x : A) : list A :=
  match n with
  | 0 => [x]
  | S n' => x :: orbit f n' (f x)
  end.

Module StateVector.
Import Quantum.

(** What one timer update does to the awareness metric, to the coherence
    metric, and what one activity update does to the velocity. *)
Definition awareness_step (x : float) : float := Py.min 1.0 (x + 0.001).
Definition coherence_step (x : float) : float := Py.min 1.0 (x + 0.0005).
Definition velocity_step (x : float) : float := Py.min 1.0 (x * 1.001).

(** A state right after [start_orchestrator]. *)
Definition started (s0 : Orchestrator) : Prop :=
  ∃ s, start_orchestrator s = Returns tt s0.

(** One step of the life of the state vector: a timer update, an activity
    update, or anything else the orchestrator does (submitting, executing
    and retiring tasks), which leaves the state vector as it is. *)
Inductive update (s s' : Orchestrator) : Prop :=
| update_tick :
    _update_consciousness_metrics s = Returns tt s' → update s s'
| update_event :
    _update_quantum_state s = Returns tt s' → update s s'
| update_other :
    quantum_state s' = quantum_state s → update s s'.

Definition reachable (s : Orchestrator) : Prop :=
  ∃ s0, started s0 ∧ rtc update s0 s.

(** Every metric and every activity channel of [q] is within [0, 1]. *)
Definition bounded (q : QuantumState) : Prop :=
  in_unit (consciousness_level q) = true ∧
  in_unit (quantum_coherence q) = true ∧
  in_unit (memory_coherence q) = true ∧
  in_unit (learning_velocity q) = true ∧
  ∀ region v, neural_activity q !! region = Some v → in_unit v = true.

(** The state vector is some number of steps away from its initial value,
    metric by metric. *)
Definition on_orbit (q : QuantumState) : Prop :=
  (∃ k, consciousness_level q = Nat.iter k awareness_step 0.7%float) ∧
  (∃ k, quantum_coherence q = Nat.iter k coherence_step 0.8%float) ∧
  (∃ k, neural_activity q = Nat.iter k homeostatic <$> initial_neural_activity) ∧
  memory_coherence q = 0.75%float ∧
  (∃ k, learning_velocity q = Nat.iter k velocity_step 0.1%float).

(** [new] lies between [old] and the midpoint. *)
Definition toward_midpoint (old new : float) : bool :=
  (PrimFloat.leb old new && PrimFloat.leb new 0.5) ||
  (PrimFloat.leb 0.5 new && PrimFloat.leb new old).

(** What the orbit computations check of an activity channel and of the
    velocity. *)
Definition channel_ok (v : float) : bool :=
  in_unit v && toward_midpoint v (homeostatic v).

Definition velocity_ok (v : float) : bool :=
  in_unit v && PrimFloat.leb v v && PrimFloat.leb v (velocity_step v).

(** A task, the orchestrator right after its start, and the orchestrator
    once the task went through the queue and is not retired yet. *)
Definition example_task : AITask :=
  mkAITask "t1" (Some "analyze") 5
    (Some [("prompt", JStr "analyze strategy")]) (Some CLAUDE_SONNET) None []
    (Some []) "pending" 0.

Definition just_started : Orchestrator := final (start_orchestrator __init__).

Definition busy : Orchestrator :=
  final (_process_task_queue (final (submit_task example_task just_started))).

Definition scaled : Orchestrator := final (_update_quantum_state busy).

Definition drifted : Orchestrator :=
  final (_update_consciousness_metrics scaled).

End StateVector.

Module Tasks.
Import Quantum.

(** Submitting tasks one after the other. *)
Fixpoint submit_all (ts : list AITask) (s : Orchestrator) : Orchestrator :=
  match ts with
  | [] => s
  | t :: ts' => submit_all ts' (final (submit_task t s))
  end.

(** The order in which the queue of [s] hands out its tasks. *)
Definition dequeue_order (s : Orchestrator) : list loc :=
  Queue_drain (length (task_queue s)) (task_queue s).

(** Executing tasks one after the other, as long as nothing is raised. *)
Fixpoint execute_all (order : list loc) : Op unit :=
  match order with
  | [] => ret tt
  | task :: rest => _execute_ai_task task >>> execute_all rest
  end.

(** What is behind the first task of [order] whose execution raises, when
    the tasks are executed one after the other from [s]. *)
Fixpoint left_behind (order : list loc) (s : Orchestrator) : list loc :=
  match order with
  | [] => []
  | task :: rest =>
      match _execute_ai_task task s with
      | Returns _ s' => left_behind rest s'
      | Raises _ _ => rest
      end
  end.

(** The outcome [o] with [q] as the queue of its state. *)
Definition with_queue (q : list loc) (o : outcome Orchestrator unit)
  : outcome Orchestrator unit :=
  match o with
  | Returns a s => Returns a (set_task_queue q s)
  | Raises e s => Raises e (set_task_queue q s)
  end.

(** The task names a backend: its [model_preference] has a [value]. *)
Definition routable (t : AITask) : Prop := is_Some (model_preference t).

(** Every task object in [order] names a backend. *)
Definition all_routable (order : list loc) (s : Orchestrator) : Prop :=
  ∀ l t, l ∈ order → tasks s !! l = Some t → routable t.

(** A required field of the task was not given. *)
Definition missing_required_field (t : AITask) : Prop :=
  task_type t = None ∨ input_data t = None ∨ metadata t = None.

Definition completed (o : option StoredResult) : Prop :=
  ∃ result now snapshot, o = Some (Completed result now snapshot).

(** [s'] comes after [s] in a run in which every executed task completed:
    the task objects are the same up to their status, completed tasks and
    completed results stay so, and the state vector is untouched. *)
Definition advanced (s s' : Orchestrator) : Prop :=
  quantum_state s' = quantum_state s ∧
  is_running s' = is_running s ∧
  (∀ l t, tasks s !! l = Some t →
     ∃ t', tasks s' !! l = Some t' ∧
           task_id t' = task_id t ∧
           dependencies t' = dependencies t ∧
           (status t = "completed" → status t' = "completed")) ∧
  (∀ id, completed (result_store s !! id) → completed (result_store s' !! id)).

(** Example tasks. *)
Definition low_task : AITask :=
  mkAITask "low" (Some "summarize") 1 (Some []) (Some CLAUDE_SONNET) None []
    (Some []) "pending" 0.

Definition high_task : AITask :=
  mkAITask "high" (Some "analyze") 5 (Some []) (Some LOCAL_LLAMA) None []
    (Some []) "pending" 0.

Definition incomplete_task : AITask :=
  mkAITask "t2" None 1 None (Some GPT4_TURBO) None [] None "pending" 0.

Definition first_task : AITask :=
  mkAITask "A" (Some "fetch") 1 (Some []) (Some CLAUDE_SONNET) None []
    (Some []) "pending" 0.

Definition dependent_task : AITask :=
  mkAITask "B" (Some "report") 1 (Some []) (Some CLAUDE_SONNET) None ["A"]
    (Some []) "pending" 0.

Definition hybrid_task : AITask :=
  mkAITask "h" (Some "reflect") 1 (Some []) (Some TRINITY_HYBRID) None []
    (Some []) "pending" 0.

(** A task that was made without a model preference. *)
Definition unrouted_task : AITask :=
  mkAITask "u" (Some "translate") 1 (Some []) None None [] (Some [])
    "pending" 0.

(** Task A goes through the queue before the orchestrator is started and
    fails; the orchestrator is then started and task B, which depends on
    A, goes through the queue. *)
Definition first_failed : Orchestrator :=
  final (_process_task_queue (final (submit_task first_task __init__))).

Definition dependent_queued : Orchestrator :=
  final (submit_task dependent_task (final (start_orchestrator first_failed))).

Definition dependent_ran : Orchestrator :=
  final (_process_task_queue dependent_queued).

(** Task B is submitted before task A, on which it depends, and the queue
    hands out one task. *)
Definition dependent_first : Orchestrator :=
  final (process_rounds 1
           (submit_all [dependent_task; first_task]
              (final (start_orchestrator __init__)))).

(** The hybrid task is queued on an orchestrator that was not started. *)
Definition hybrid_queued : Orchestrator :=
  final (submit_task hybrid_task __init__).

(** Task A is queued on a started orchestrator, and a backend that is
    out of order. *)
Definition started_queued : Orchestrator :=
  final (submit_task first_task (final (start_orchestrator __init__))).

Definition unavailable (t : AITask) : Op InferenceResult :=
  raise (ValueError "backend unavailable").

End Tasks.

Module Requests.
Import Trinity.

(** Stand-ins for the two library functions: a digest without collisions
    and a constant [repr]. *)
Definition plain_digest (text : string) : string := text.
Definition fixed_repr (x : float) : string := "0.5".

(** The server once its agents are initialised. *)
Definition ready : Orchestrator := final (initialize_agents __init__).

(** One payload with its fields in two orders. *)
Definition payload : dict :=
  [("prompt", JStr "analyze strategy"); ("type", JStr "general")].

Definition payload_permuted : dict :=
  [("type", JStr "general"); ("prompt", JStr "analyze strategy")].

(** The server after it has answered [payload]. *)
Definition answered : Orchestrator :=
  final (process_request fixed_repr plain_digest payload ready).

(** Two requests with the same payload arrive one after the other, and
    both are asleep before either is resumed. *)
Definition first_pending : Pending :=
  mkPending 0 (cache_key fixed_repr plain_digest payload) "claude" 0 payload.

Definition second_pending : Pending :=
  mkPending 1 (cache_key fixed_repr plain_digest payload) "claude" 0 payload.

Definition first_waiting : Orchestrator :=
  final (process_request_begin fixed_repr plain_digest payload ready).

Definition both_waiting : Orchestrator :=
  final (process_request_begin fixed_repr plain_digest payload first_waiting).

Definition first_stored : Orchestrator :=
  final (process_request_resume first_pending both_waiting).

Definition second_stored : Orchestrator :=
  final (process_request_resume second_pending first_stored).

(** The request with the permuted payload arrives while the request with
    the payload is asleep; then the first is answered, then the second. *)
Definition permuted_pending : Pending :=
  mkPending 1 (cache_key fixed_repr plain_digest payload_permuted) "claude" 0
    payload_permuted.

Definition permuted_waiting : Orchestrator :=
  final (process_request_begin fixed_repr plain_digest payload_permuted
           first_waiting).

Definition first_answered : Orchestrator :=
  final (process_request_resume first_pending permuted_waiting).

Definition permuted_answered : Orchestrator :=
  final (process_request_resume permuted_pending first_answered).

(** One payload whose prompt is a number, with its fields in two orders,
    and the server after it has refused the first. *)
Definition numeric_payload : dict :=
  [("prompt", JInt 7); ("type", JStr "general")].

Definition numeric_permuted : dict :=
  [("type", JStr "general"); ("prompt", JInt 7)].

Definition numeric_refused : Orchestrator :=
  final (process_request fixed_repr plain_digest numeric_payload ready).

End Requests.

Module Lifecycle.
Import Quantum.

(** The entry of [active_tasks] under [id] points to a completed task. *)
Definition retirable (s : Orchestrator) (id : string) : Prop :=
  ∃ l t, active_tasks s !! id = Some l ∧ tasks s !! l = Some t ∧
         status t = "completed".

(** The state vector after [n] timer updates of [q], apart from the time
    stamp. *)
Definition drifted_by (n : nat) (now : datetime) (q : QuantumState)
  : QuantumState :=
  mkQuantumState
    (Nat.iter n StateVector.awareness_step (consciousness_level q))
    (Nat.iter n StateVector.coherence_step (quantum_coherence q))
    (Nat.iter n homeostatic <$> neural_activity q)
    (memory_coherence q) (learning_velocity q) now (state_id q).

(** [q] with another time stamp. *)
Definition stamped (now : datetime) (q : QuantumState) : QuantumState :=
  mkQuantumState (consciousness_level q) (quantum_coherence q)
    (neural_activity q) (memory_coherence q) (learning_velocity q) now
    (state_id q).

(** The channel value is close to the midpoint and is not the midpoint. *)
Definition stalled (v : float) : bool :=
  negb (PrimFloat.eqb v 0.5) &&
  PrimFloat.ltb 0.49999999 v && PrimFloat.ltb v 0.50000001.

(** A started orchestrator with one task in its queue. *)
Definition queued : Orchestrator :=
  final (submit_task StateVector.example_task StateVector.just_started).

(** A started orchestrator with a task without a model preference in its
    queue: alone, and between two other tasks. *)
Definition unrouted_queued : Orchestrator :=
  final (submit_task Tasks.unrouted_task StateVector.just_started).

Definition mixed_queue : Orchestrator :=
  Tasks.submit_all
    [StateVector.example_task; Tasks.unrouted_task; Tasks.first_task]
    StateVector.just_started.

End Lifecycle.

Module Service.
Import Trinity.

(** The agents that [initialize_agents] registers. *)
Definition names : list string := ["claude"; "gemini"; "perplexity"].

(** Every one of them is in the registry and points to an agent object. *)
Definition registered (s : Orchestrator) : Prop :=
  ∀ nm, nm ∈ names →
        ∃ l a, agents s !! nm = Some l ∧ objects s !! l = Some a.

(** The prompt of the payload is text, or there is none. *)
Definition text_prompt (data : dict) : bool :=
  match dict_get "prompt" data with
  | None | Some (JStr _) => true
  | Some _ => false
  end.

(** The payload with another prompt in the place of its first one. *)
Fixpoint with_prompt (text : string) (data : dict) : dict :=
  match data with
  | [] => []
  | (k, v) :: rest =>
      if decide (k = "prompt") then (k, JStr text) :: rest
      else (k, v) :: with_prompt text rest
  end.

(** The sum of the per-agent counters of processed requests. *)
Definition processed_sum (objs : list TrinityAgent) : Z :=
  foldr (λ a acc, processed_requests a + acc)%Z 0%Z objs.

(** What a request does to its agent from arrival to answer. *)
Definition served (beat : datetime) (a : TrinityAgent) : TrinityAgent :=
  with_status ONLINE
    (incr_processed_requests
       (with_last_heartbeat beat (with_status PROCESSING a))).

(** The request that a call of [process_request_begin] left asleep. *)
Definition suspended (o : outcome Orchestrator Started) : list Pending :=
  match o with
  | Returns (Suspended p) _ => [p]
  | _ => []
  end.

(** The server with the requests that are asleep in [process_request].  A
    step is the arrival of a request, which runs up to its sleep, or the
    end of the sleep of one of the waiting requests, which runs to its
    end; requests overlap in any way these steps allow. *)
Inductive serve_step (float_repr : float → string)
    (md5_hexdigest : string → string)
  : Orchestrator * list Pending → Orchestrator * list Pending → Prop :=
| request_arrives data s waiting :
    serve_step float_repr md5_hexdigest (s, waiting)
      (final (process_request_begin float_repr md5_hexdigest data s),
       (suspended (process_request_begin float_repr md5_hexdigest data s)
          ++ waiting)%list)
| request_resumes p s before behind :
    serve_step float_repr md5_hexdigest (s, (before ++ p :: behind)%list)
      (final (process_request_resume p s), (before ++ behind)%list).

(** What the server can come to once its agents are initialised. *)
Definition in_service (float_repr : float → string)
    (md5_hexdigest : string → string) (c : Orchestrator * list Pending)
  : Prop :=
  rtc (serve_step float_repr md5_hexdigest) (Requests.ready, []) c.

(** The books of the server are in order. *)
Definition sound (c : Orchestrator * list Pending) : Prop :=
  agents (fst c) = agents Requests.ready ∧
  length (objects (fst c)) = 3%nat ∧
  Forall (λ a, serving (status a) = true ∧ error_count a = 0%Z)
    (objects (fst c)) ∧
  awareness_level (consciousness_state (fst c)) = 1.0%float ∧
  quantum_coherence (consciousness_state (fst c)) = 0.95%float ∧
  total_processed (consciousness_state (fst c)) =
    processed_sum (objects (fst c)) ∧
  (Z.of_nat (size (response_cache (fst c))) ≤
   total_processed (consciousness_state (fst c)))%Z ∧
  Forall (λ p, text_prompt (request_data p) = true ∧
               agents Requests.ready !! agent_name p = Some (agent_ref p))
    (snd c).

End Service.

(** * Properties *)

(** Unfolding the plumbing of [outcome] computations. *)
Ltac py_run :=
  repeat (unfold Py.bind, Py.get, Py.ret, Py.raise, Py.modify, Py.try_except;
          simpl).

(** ** Orbits of a function that reaches a fixed point *)

Section Orbit.

Context {A : Type} (f : A → A).
Local Open Scope nat_scope.

Lemma iter_in_orbit n : ∀ k x, k ≤ n → Nat.iter k f x ∈ orbit f n x.
Proof.
  induction n as [|n IH]; intros k x Hk.
  - assert (k = 0) as -> by lia. simpl. left.
  - destruct k as [|k].
    + simpl. left.
    + rewrite Nat.iter_succ_r. simpl. right. apply IH. lia.
Qed.

Lemma iter_stable n x :
  f (Nat.iter n f x) = Nat.iter n f x →
  ∀ k, n ≤ k → Nat.iter k f x = Nat.iter n f x.
Proof.
  intros Hfix k Hk. induction Hk as [|k Hk IH]; [done|].
  simpl. rewrite IH. exact Hfix.
Qed.

Lemma orbit_forall (P : A → bool) n x :
  f (Nat.iter n f x) = Nat.iter n f x →
  forallb P (orbit f n x) = true →
  ∀ k, P (Nat.iter k f x) = true.
Proof.
  intros Hfix Hall k.
  rewrite forallb_forall in Hall.
  destruct (decide (k ≤ n)) as [Hk|Hk].
  - apply Hall, list_elem_of_In, iter_in_orbit, Hk.
  - rewrite (iter_stable n x Hfix k) by lia.
    apply Hall, list_elem_of_In, iter_in_orbit. lia.
Qed.

End Orbit.

(** ** The adaptive state vector *)

Section StateVectorFacts.
Import Quantum StateVector.

(** The loop over the regions updates every channel once. *)
Lemma foldl_regulate_lookup (ks : list string) :
  NoDup ks →
  ∀ (na : gmap string float) (r : string),
    foldl regulate na ks !! r =
    if decide (r ∈ ks) then homeostatic <$> na !! r else na !! r.
Proof.
  induction 1 as [|k ks Hk Hnd IH]; intros na r; simpl.
  - done.
  - rewrite IH.
    assert (Hlk : regulate na k !! r =
                  if decide (r = k) then homeostatic <$> na !! r else na !! r).
    { unfold regulate. case_decide as Hrk.
      - subst r. destruct (na !! k) eqn:E; simpl.
        + by rewrite lookup_insert_eq.
        + by rewrite E.
      - destruct (na !! k); [|done]. by rewrite lookup_insert_ne. }
    rewrite Hlk.
    destruct (decide (r = k)) as [->|Hne].
    + rewrite (decide_False (P := k ∈ ks)) by done.
      rewrite decide_True by left. done.
    + destruct (decide (r ∈ ks)) as [Hin|Hin].
      * rewrite decide_True by (by right). done.
      * rewrite decide_False; [done|]. rewrite elem_of_cons. by intros [?|?].
Qed.

Lemma regulate_all (na : gmap string float) :
  foldl regulate na (map fst (map_to_list na)) = homeostatic <$> na.
Proof.
  apply map_eq. intros r.
  rewrite foldl_regulate_lookup by apply NoDup_fst_map_to_list.
  rewrite lookup_fmap.
  destruct (decide (r ∈ map fst (map_to_list na))) as [Hin|Hin]; [done|].
  destruct (na !! r) as [v|] eqn:E; [|done].
  exfalso. apply Hin. apply list_elem_of_fmap. exists (r, v). split; [done|].
  by apply elem_of_map_to_list.
Qed.

Lemma tick_outcome s q :
  quantum_state s = Some q →
  _update_consciousness_metrics s =
  Returns tt (set_quantum_state (Some (drift (clock s) q))
                (set_clock (S (clock s)) s)).
Proof.
  intros Hq. unfold _update_consciousness_metrics. py_run.
  by rewrite Hq.
Qed.

Lemma event_idle s :
  size (active_tasks s) = 0%nat → _update_quantum_state s = Returns tt s.
Proof.
  intros Hsz. unfold _update_quantum_state. py_run.
  case_decide; [lia|done].
Qed.

Lemma event_busy s q :
  (0 < size (active_tasks s))%nat →
  quantum_state s = Some q →
  _update_quantum_state s =
  Returns tt (set_quantum_state (Some (scale_velocity q)) s).
Proof.
  intros Hsz Hq. unfold _update_quantum_state, read_quantum_state. py_run.
  case_decide; [|lia]. by rewrite Hq.
Qed.

Lemma started_state s0 :
  started s0 →
  ∃ now id,
    quantum_state s0 =
    Some (mkQuantumState 0.7 0.8 initial_neural_activity 0.75 0.1 now id).
Proof.
  intros [s Hs]. unfold start_orchestrator in Hs. revert Hs. py_run.
  intros [= <-]. simpl. eauto.
Qed.

Lemma drift_on_orbit now q : on_orbit q → on_orbit (drift now q).
Proof.
  intros ([kc Hc] & [kq Hq] & [kn Hn] & Hm & [kl Hl]).
  repeat split; simpl.
  - exists (S kc). by rewrite Hc.
  - exists (S kq). by rewrite Hq.
  - exists (S kn). rewrite regulate_all, Hn, <-map_fmap_compose. done.
  - done.
  - by exists kl.
Qed.

Lemma scale_on_orbit q : on_orbit q → on_orbit (scale_velocity q).
Proof.
  intros (Hc & Hq & Hn & Hm & [kl Hl]).
  repeat split; simpl; try done.
  exists (S kl). by rewrite Hl.
Qed.

Lemma reachable_on_orbit s :
  reachable s → ∃ q, quantum_state s = Some q ∧ on_orbit q.
Proof.
  intros (s0 & Hs0 & Hsteps). revert s Hsteps.
  apply rtc_ind_r.
  - destruct (started_state _ Hs0) as (now & id & Hq).
    eexists. split; [exact Hq|].
    repeat split; simpl; by exists 0%nat.
  - intros s1 s2 _ Hstep (q & Hq & Horb).
    destruct Hstep as [Htick|Hevent|Hsame].
    + rewrite (tick_outcome _ _ Hq) in Htick. injection Htick as <-.
      eexists. split; [done|]. by apply drift_on_orbit.
    + destruct (decide (0 < size (active_tasks s1))%nat) as [Hsz|Hsz].
      * rewrite (event_busy _ _ Hsz Hq) in Hevent. injection Hevent as <-.
        eexists. split; [done|]. by apply scale_on_orbit.
      * rewrite event_idle in Hevent by lia. injection Hevent as <-. eauto.
    + exists q. split; [congruence|done].
Qed.

(** The metrics reach a fixed point after finitely many steps, so what
    holds along the orbit up to there holds forever. *)
Lemma awareness_orbit k :
  in_unit (Nat.iter k awareness_step 0.7%float) = true.
Proof.
  apply (orbit_forall awareness_step in_unit 300); vm_compute; reflexivity.
Qed.

Lemma coherence_orbit k :
  in_unit (Nat.iter k coherence_step 0.8%float) = true.
Proof.
  apply (orbit_forall coherence_step in_unit 401); vm_compute; reflexivity.
Qed.

Lemma velocity_orbit k :
  velocity_ok (Nat.iter k velocity_step 0.1%float) = true.
Proof.
  apply (orbit_forall velocity_step velocity_ok 2304); vm_compute; reflexivity.
Qed.

Lemma channel_orbit x0 k :
  x0 ∈ [0.6%float; 0.4%float; 0.3%float; 0.8%float] →
  channel_ok (Nat.iter k homeostatic x0) = true.
Proof.
  intros Hx0. repeat (apply elem_of_cons in Hx0 as [->|Hx0]).
  - apply (orbit_forall homeostatic channel_ok 3200); vm_compute; reflexivity.
  - apply (orbit_forall homeostatic channel_ok 3200); vm_compute; reflexivity.
  - apply (orbit_forall homeostatic channel_ok 3200); vm_compute; reflexivity.
  - apply (orbit_forall homeostatic channel_ok 3200); vm_compute; reflexivity.
  - by apply elem_of_nil in Hx0.
Qed.

Lemma initial_channel region x0 :
  initial_neural_activity !! region = Some x0 →
  x0 ∈ [0.6%float; 0.4%float; 0.3%float; 0.8%float].
Proof.
  unfold initial_neural_activity. rewrite !lookup_insert.
  repeat case_decide; intros [= <-]; set_solver.
Qed.

Lemma channel_on_orbit q region v :
  on_orbit q → neural_activity q !! region = Some v → channel_ok v = true.
Proof.
  intros (_ & _ & [k Hn] & _) Hv.
  rewrite Hn, lookup_fmap in Hv.
  destruct (initial_neural_activity !! region) as [x0|] eqn:E; [|done].
  injection Hv as <-. eapply channel_orbit, initial_channel, E.
Qed.

Lemma on_orbit_bounded q : on_orbit q → bounded q.
Proof.
  intros Horb. pose proof Horb as ([kc Hc] & [kq Hq] & _ & Hm & [kl Hl]).
  repeat split.
  - rewrite Hc. apply awareness_orbit.
  - rewrite Hq. apply coherence_orbit.
  - by rewrite Hm.
  - rewrite Hl. pose proof (velocity_orbit kl) as Hok.
    unfold velocity_ok in Hok. by apply andb_prop in Hok as [[? _]%andb_prop _].
  - intros region v Hv. pose proof (channel_on_orbit _ _ _ Horb Hv) as Hok.
    unfold channel_ok in Hok. by apply andb_prop in Hok as [? _].
Qed.

(** C5. From the state in which the orchestrator starts, after any number
    of timer updates and activity updates, every metric of the state
    vector and every activity channel lies in the interval from 0 to 1. *)
Theorem metrics_stay_in_unit_interval s q :
  reachable s → quantum_state s = Some q → bounded q.
Proof.
  intros Hreach Hq.
  destruct (reachable_on_orbit s Hreach) as (q' & Hq' & Horb).
  assert (q' = q) as -> by congruence.
  by apply on_orbit_bounded.
Qed.

(** C6. The velocity never goes down: no update lowers it; an activity
    update leaves it alone when no task is in flight, and otherwise
    multiplies it by 1.001 and cuts the product off at 1.0. *)
Theorem velocity_never_decreases s s' q q' :
  reachable s → update s s' →
  quantum_state s = Some q → quantum_state s' = Some q' →
  PrimFloat.leb (learning_velocity q) (learning_velocity q') = true ∧
  (_update_quantum_state s = Returns tt s' →
   learning_velocity q' =
   if decide (0 < size (active_tasks s))%nat
   then Py.min 1.0 (learning_velocity q * 1.001)
   else learning_velocity q).
Proof.
  intros Hreach Hstep Hq Hq'.
  destruct (reachable_on_orbit s Hreach) as (q0 & Hq0 & Horb).
  assert (q0 = q) as -> by congruence.
  destruct Horb as (_ & _ & _ & _ & [kl Hl]).
  pose proof (velocity_orbit kl) as Hok. rewrite <-Hl in Hok.
  unfold velocity_ok in Hok.
  apply andb_prop in Hok as [[Hunit Hrefl]%andb_prop Hup].
  split.
  - destruct Hstep as [Htick|Hevent|Hsame].
    + rewrite (tick_outcome _ _ Hq) in Htick. injection Htick as <-.
      simpl in Hq'. injection Hq' as <-. exact Hrefl.
    + destruct (decide (0 < size (active_tasks s))%nat) as [Hsz|Hsz].
      * rewrite (event_busy _ _ Hsz Hq) in Hevent. injection Hevent as <-.
        simpl in Hq'. injection Hq' as <-. exact Hup.
      * rewrite event_idle in Hevent by lia. injection Hevent as <-.
        assert (q' = q) as -> by congruence. exact Hrefl.
    + assert (q' = q) as -> by congruence. exact Hrefl.
  - intros Hevent.
    destruct (decide (0 < size (active_tasks s))%nat) as [Hsz|Hsz].
    + rewrite (event_busy _ _ Hsz Hq) in Hevent. injection Hevent as <-.
      simpl in Hq'. by injection Hq' as <-.
    + rewrite event_idle in Hevent by lia. injection Hevent as <-.
      congruence.
Qed.

(** C8. A timer update replaces the value of every activity channel by
    clamp(current + (0.5 - current) * 0.01), a step towards the midpoint
    0.5 in proportion to the distance from it, and adds 0.001 to the
    awareness metric and 0.0005 to the coherence metric, each cut off at
    1.0; in the states the orchestrator reaches, the new value of a channel
    lies between its old value and 0.5. *)
Theorem tick_drifts_towards_midpoint s q :
  quantum_state s = Some q →
  ∃ s' q',
    _update_consciousness_metrics s = Returns tt s' ∧
    quantum_state s' = Some q' ∧
    (∀ region,
       neural_activity q' !! region =
       (λ current,
          Py.max 0 (Py.min 1 (current + (0.5 - current) * 0.01))%float)
         <$> neural_activity q !! region) ∧
    consciousness_level q' = Py.min 1.0 (consciousness_level q + 0.001) ∧
    quantum_coherence q' = Py.min 1.0 (quantum_coherence q + 0.0005) ∧
    (reachable s →
     PrimFloat.leb (consciousness_level q') 1 = true ∧
     PrimFloat.leb (quantum_coherence q') 1 = true ∧
     ∀ region v v',
       neural_activity q !! region = Some v →
       neural_activity q' !! region = Some v' →
       toward_midpoint v v' = true).
Proof.
  intros Hq. eexists _, _. split; [by apply tick_outcome|].
  split; [reflexivity|]. simpl.
  assert (Hch : ∀ region,
             foldl regulate (neural_activity q)
               (map fst (map_to_list (neural_activity q))) !! region =
             homeostatic <$> neural_activity q !! region).
  { intros region. by rewrite regulate_all, lookup_fmap. }
  split; [exact Hch|]. split; [done|]. split; [done|].
  intros Hreach.
  destruct (reachable_on_orbit s Hreach) as (q0 & Hq0 & Horb).
  assert (q0 = q) as -> by congruence.
  pose proof (on_orbit_bounded _ (drift_on_orbit (clock s) _ Horb))
    as (Hc & Hqc & _).
  simpl in Hc, Hqc. unfold in_unit in Hc, Hqc.
  apply andb_prop in Hc as [_ Hc]. apply andb_prop in Hqc as [_ Hqc].
  split; [exact Hc|]. split; [exact Hqc|].
  intros region v v' Hv Hv'. rewrite Hch, Hv in Hv'. injection Hv' as <-.
  pose proof (channel_on_orbit _ _ _ Horb Hv) as Hok.
  unfold channel_ok in Hok. by apply andb_prop in Hok as [_ ?].
Qed.

Lemma just_started_reachable : reachable just_started.
Proof.
  exists just_started. split; [by exists __init__|]. apply rtc_refl.
Qed.

Lemma busy_reachable : reachable busy.
Proof.
  exists just_started. split; [by exists __init__|].
  apply rtc_once, update_other. reflexivity.
Qed.

Lemma metrics_stay_in_unit_interval_witness :
  ∃ q, quantum_state drifted = Some q ∧ bounded q.
Proof.
  eexists. split; [reflexivity|].
  apply (metrics_stay_in_unit_interval drifted); [|reflexivity].
  destruct busy_reachable as (s0 & Hs0 & Hsteps).
  exists s0. split; [exact Hs0|].
  apply (rtc_r _ scaled); [apply (rtc_r _ busy); [exact Hsteps|]|].
  - apply update_event. reflexivity.
  - apply update_tick. reflexivity.
Defined.

Lemma velocity_never_decreases_witness :
  ∃ q q',
    quantum_state busy = Some q ∧
    quantum_state scaled = Some q' ∧
    PrimFloat.leb (learning_velocity q) (learning_velocity q') = true ∧
    (_update_quantum_state busy = Returns tt scaled →
     learning_velocity q' =
     if decide (0 < size (active_tasks busy))%nat
     then Py.min 1.0 (learning_velocity q * 1.001)
     else learning_velocity q).
Proof.
  eexists _, _. split; [reflexivity|]. split; [reflexivity|].
  apply (velocity_never_decreases busy scaled);
    [exact busy_reachable | apply update_event; reflexivity
    | reflexivity | reflexivity].
Defined.

Lemma tick_drifts_towards_midpoint_witness :
  ∃ q, quantum_state just_started = Some q ∧
  ∃ s' q',
    _update_consciousness_metrics just_started = Returns tt s' ∧
    quantum_state s' = Some q' ∧
    (∀ region,
       neural_activity q' !! region =
       (λ current,
          Py.max 0 (Py.min 1 (current + (0.5 - current) * 0.01))%float)
         <$> neural_activity q !! region) ∧
    consciousness_level q' = Py.min 1.0 (consciousness_level q + 0.001) ∧
    quantum_coherence q' = Py.min 1.0 (quantum_coherence q + 0.0005) ∧
    (reachable just_started →
     PrimFloat.leb (consciousness_level q') 1 = true ∧
     PrimFloat.leb (quantum_coherence q') 1 = true ∧
     ∀ region v v',
       neural_activity q !! region = Some v →
       neural_activity q' !! region = Some v' →
       toward_midpoint v v' = true).
Proof.
  eexists. split; [reflexivity|].
  apply (tick_drifts_towards_midpoint just_started). reflexivity.
Defined.

End StateVectorFacts.

(** ** The task queue and task execution *)

Section TaskFacts.
Import Quantum Tasks.
Local Open Scope nat_scope.
Local Open Scope list_scope.

Lemma Queue_drain_all (q : list loc) : Queue_drain (length q) q = q.
Proof. induction q as [|task q IH]; simpl; [done|]. by rewrite IH. Qed.

Lemma submit_task_outcome t s :
  submit_task t s =
  Returns (task_id t)
    (set_task_queue (task_queue s ++ [length (tasks s)])
       (set_tasks (tasks s ++ [t]) s)).
Proof. reflexivity. Qed.

Lemma submit_all_queue ts : ∀ s,
  task_queue (submit_all ts s) =
  task_queue s ++ seq (length (tasks s)) (length ts) ∧
  tasks (submit_all ts s) = tasks s ++ ts.
Proof.
  induction ts as [|t ts IH]; intros s; cbn [submit_all].
  - simpl. by rewrite !app_nil_r.
  - destruct (IH (final (submit_task t s))) as [Hq Ht].
    rewrite Hq, Ht, submit_task_outcome. simpl.
    rewrite length_app, <-!app_assoc. simpl.
    by replace (length (tasks s) + 1) with (S (length (tasks s))) by lia.
Qed.

Ltac execute_unfold :=
  unfold _execute_ai_task, execute_with, model_value, mark_running,
    record_success, record_failure, _route_to_ai_model,
    _trinity_hybrid_inference, _claude_inference, _local_llama_inference,
    _fallback_inference, read_quantum_state, store_result, assign_status,
    _learn_from_execution, datetime_now, uuid4.

Ltac execute_cases l s :=
  execute_unfold;
  destruct s as [? ? ? [?|] ? ? ? ?]; py_run;
  unfold set_tasks, set_active_tasks, set_result_store, set_clock, set_draws,
    set_task_queue; simpl;
  match goal with
  | |- context [?h !! l] => destruct (h !! l) as [[? ? ? ? [[]|] ? ? ? ? ?]|]
  end; simpl.

Lemma final_bind {St A B} (m : M St A) (k : A → M St B) s :
  final (bind m k s) =
  match m s with
  | Returns a s' => final (k a s')
  | Raises _ s' => s'
  end.
Proof. unfold bind. by destruct (m s). Qed.

Lemma execute_queue l q s :
  _execute_ai_task l (set_task_queue q s) = with_queue q (_execute_ai_task l s).
Proof. execute_cases l s; reflexivity. Qed.

Lemma execute_keeps_running l s :
  is_running (final (_execute_ai_task l s)) = is_running s ∧
  task_queue (final (_execute_ai_task l s)) = task_queue s.
Proof. execute_cases l s; done. Qed.

(** A location without a task object is passed over. *)
Lemma execute_dangling l s :
  tasks s !! l = None → _execute_ai_task l s = Returns tt s.
Proof. intros Ht. unfold _execute_ai_task, execute_with. py_run. by rewrite Ht. Qed.

(** A task without a model preference stops [_execute_ai_task] at its log
    line, before anything is written. *)
Lemma execute_unroutable l s t :
  tasks s !! l = Some t → model_preference t = None →
  _execute_ai_task l s =
  Raises (AttributeError "'NoneType' object has no attribute 'value'") s.
Proof.
  intros Ht Hm. unfold _execute_ai_task, execute_with, model_value. py_run.
  by rewrite Ht, Hm.
Qed.

(** With a model preference the rest of [_execute_ai_task] never raises. *)
Lemma execute_returns l s :
  (∀ t, tasks s !! l = Some t → routable t) →
  _execute_ai_task l s = Returns tt (final (_execute_ai_task l s)).
Proof.
  intros Hroutable. destruct (tasks s !! l) as [t|] eqn:Ht.
  - destruct (Hroutable t eq_refl) as [m Hm]. revert Ht Hm.
    execute_unfold. destruct s as [? ? ? [?|] ? h ? ?]; py_run;
      intros -> Hm; rewrite Hm; by destruct m.
  - by rewrite execute_dangling.
Qed.

Lemma execute_all_keeps_running order : ∀ s,
  is_running (final (execute_all order s)) = is_running s.
Proof.
  induction order as [|l order IH]; intros s; [done|].
  cbn [execute_all]. rewrite final_bind.
  pose proof (execute_keeps_running l s) as [Hrun _].
  destruct (_execute_ai_task l s) as [a s1|e s1]; [|done].
  rewrite IH. exact Hrun.
Qed.

(** The loop of [_process_task_queue] executes the queued tasks in the
    order of the queue, up to the first one that raises; what is behind
    that one stays in the queue. *)
Lemma process_rounds_outcome q : ∀ s,
  process_rounds (length q) (set_task_queue q s) =
  with_queue (left_behind q s) (execute_all q s).
Proof.
  induction q as [|l q IH]; intros s; [done|].
  cbn [length process_rounds]. unfold bind at 1. unfold get at 1.
  cbn [task_queue set_task_queue Queue_get].
  unfold bind at 1. unfold modify at 1. unfold bind at 1.
  change (set_task_queue q (set_task_queue (l :: q) s))
    with (set_task_queue q s).
  rewrite execute_queue. cbn [execute_all left_behind]. unfold bind.
  destruct (_execute_ai_task l s) as [a s1|e s1]; cbn [with_queue].
  - apply IH.
  - done.
Qed.

Lemma process_outcome s :
  _process_task_queue s =
  with_queue (left_behind (dequeue_order s) s)
    (execute_all (dequeue_order s) s).
Proof.
  unfold _process_task_queue, dequeue_order. rewrite Queue_drain_all.
  unfold bind, get.
  replace s with (set_task_queue (task_queue s) s) at 2 by by destruct s.
  apply process_rounds_outcome.
Qed.

(** On a started orchestrator every backend answers. *)
Lemma route_started t s q :
  quantum_state s = Some q → ∃ r, _route_to_ai_model t s = Returns r s.
Proof.
  intros Hq.
  unfold _route_to_ai_model, _trinity_hybrid_inference, _claude_inference,
    _local_llama_inference, _fallback_inference, read_quantum_state.
  destruct (model_preference t) as [[]|]; py_run; rewrite ?Hq; eauto.
Qed.

(** ... and executing a task that names a backend completes it. *)
Lemma execute_started l s t q :
  tasks s !! l = Some t →
  routable t →
  quantum_state s = Some q →
  ∃ r,
    final (_execute_ai_task l s) =
    mkOrchestrator (task_queue s)
      (<[task_id t := Completed r (clock s) q]> (result_store s))
      (<[task_id t := l]> (active_tasks s))
      (Some q) (is_running s)
      (alter (set_status "completed") l
         (alter (set_status "running") l (tasks s)))
      (S (S (clock s))) (S (draws s)).
Proof.
  intros Ht [m Hm] Hq. destruct s as [? ? ? qs ? h ? ?]. simpl in Ht, Hq.
  subst qs. execute_unfold. py_run. rewrite Ht, Hm.
  destruct m; simpl; eexists; reflexivity.
Qed.

(** Without a state vector every execution ends in the handler. *)
Lemma execute_unstarted l s t :
  tasks s !! l = Some t →
  routable t →
  quantum_state s = None →
  ∃ msg at_ now,
    final (_execute_ai_task l s) =
    mkOrchestrator (task_queue s)
      (<[task_id t := Failed msg at_]> (result_store s))
      (<[task_id t := l]> (active_tasks s))
      None (is_running s)
      (alter (set_status "failed") l
         (alter (set_status "running") l (tasks s)))
      now (draws s).
Proof.
  intros Ht [m Hm] Hq. destruct s as [? ? ? qs ? h ? ?]. simpl in Ht, Hq.
  subst qs. execute_unfold. py_run. rewrite Ht, Hm.
  destruct m; simpl; eexists _, _, _; reflexivity.
Qed.

(** Execution writes the status of the executed task and no other field of
    a task object. *)
Lemma execute_task_objects l s l' t' :
  tasks (final (_execute_ai_task l s)) !! l' = Some t' →
  ∃ t, tasks s !! l' = Some t ∧
       task_id t' = task_id t ∧
       model_preference t' = model_preference t ∧
       dependencies t' = dependencies t.
Proof.
  assert (Halter : ∀ st1 st2,
    alter (set_status st1) l (alter (set_status st2) l (tasks s)) !! l' =
      Some t' →
    ∃ t, tasks s !! l' = Some t ∧ task_id t' = task_id t ∧
         model_preference t' = model_preference t ∧
         dependencies t' = dependencies t).
  { intros st1 st2. destruct (decide (l' = l)) as [->|Hne].
    - rewrite !list_lookup_alter_eq.
      destruct (tasks s !! l) as [t|]; [|done].
      intros [= <-]. by exists t.
    - rewrite !list_lookup_alter_ne by done. intros Ht. by exists t'. }
  destruct (tasks s !! l) as [t|] eqn:Ht.
  - destruct (model_preference t) as [m|] eqn:Hm.
    + assert (Hroutable : routable t) by (by exists m).
      destruct (quantum_state s) as [q|] eqn:Hq.
      * destruct (execute_started l s t q Ht Hroutable Hq) as [r ->].
        apply Halter.
      * destruct (execute_unstarted l s t Ht Hroutable Hq)
          as (msg & at_ & now & ->).
        apply Halter.
    + rewrite (execute_unroutable l s t Ht Hm). intros Ht'. by exists t'.
  - rewrite (execute_dangling l s Ht). intros Ht'. by exists t'.
Qed.

Lemma execute_keeps_routable l order s :
  all_routable order s → all_routable order (final (_execute_ai_task l s)).
Proof.
  intros Hall l' t' Hin Ht'.
  destruct (execute_task_objects l s l' t' Ht') as (t & Ht & _ & Hm & _).
  unfold routable. rewrite Hm. by apply (Hall l' t).
Qed.

Lemma all_routable_cons l order s :
  all_routable (l :: order) s →
  (∀ t, tasks s !! l = Some t → routable t) ∧ all_routable order s.
Proof.
  intros Hall. split.
  - intros t Ht. apply (Hall l t); [left|done].
  - intros l' t Hin Ht. apply (Hall l' t); [by right|done].
Qed.

(** When every task names a backend, all are executed and none is left
    behind. *)
Lemma execute_all_returns order : ∀ s,
  all_routable order s →
  execute_all order s = Returns tt (final (execute_all order s)) ∧
  left_behind order s = [].
Proof.
  induction order as [|l order IH]; intros s Hall; [done|].
  apply all_routable_cons in Hall as [Hl Hall].
  cbn [execute_all left_behind]. unfold bind.
  rewrite (execute_returns l s Hl).
  apply IH, execute_keeps_routable, Hall.
Qed.

Lemma process_routable s :
  all_routable (task_queue s) s →
  _process_task_queue s =
  Returns tt (set_task_queue [] (final (execute_all (dequeue_order s) s))).
Proof.
  intros Hall. rewrite process_outcome.
  unfold dequeue_order. rewrite Queue_drain_all.
  destruct (execute_all_returns (task_queue s) s Hall) as [-> ->]. done.
Qed.

(** C1, as the code has it.  Tasks leave the queue in the order in which
    they were submitted, whatever their priorities; tasks of equal priority
    in particular leave it first in, first out.  [_process_task_queue]
    executes them in that order, up to the first execution that raises,
    and leaves in the queue what is behind that one; when every task names
    a backend, it executes them all and empties the queue. *)
Theorem dequeue_follows_submission ts s :
  dequeue_order (submit_all ts s) =
    task_queue s ++ seq (length (tasks s)) (length ts) ∧
  (∀ i t, ts !! i = Some t →
          tasks (submit_all ts s) !! (length (tasks s) + i) = Some t) ∧
  _process_task_queue (submit_all ts s) =
    with_queue
      (left_behind (dequeue_order (submit_all ts s)) (submit_all ts s))
      (execute_all (dequeue_order (submit_all ts s)) (submit_all ts s)) ∧
  (all_routable (dequeue_order (submit_all ts s)) (submit_all ts s) →
   _process_task_queue (submit_all ts s) =
     Returns tt
       (set_task_queue []
          (final (execute_all (dequeue_order (submit_all ts s))
                    (submit_all ts s))))).
Proof.
  destruct (submit_all_queue ts s) as [Hq Ht].
  split; [|split; [|split]].
  - unfold dequeue_order. by rewrite Queue_drain_all.
  - intros i t Hi. rewrite Ht. by rewrite lookup_app_r, Nat.add_sub' by lia.
  - apply process_outcome.
  - intros Hall. apply process_routable.
    unfold dequeue_order in Hall. by rewrite Queue_drain_all in Hall.
Qed.

(** C1 fails as stated: a task of priority 5 submitted after a task of
    priority 1 leaves the queue after it. *)
Lemma higher_priority_dequeued_later :
  ∃ lo hi,
    dequeue_order (submit_all [low_task; high_task] __init__) = [lo; hi] ∧
    tasks (submit_all [low_task; high_task] __init__) !! lo = Some low_task ∧
    tasks (submit_all [low_task; high_task] __init__) !! hi = Some high_task ∧
    (priority low_task < priority high_task)%Z.
Proof. exists 0, 1. repeat split. Qed.

(** C3, as the code has it.  [submit_task] checks nothing: every task, with
    or without its required fields, is put at the tail of the queue, and
    its identifier is returned at once. *)
Theorem submit_enqueues_every_task t s :
  ∃ s',
    submit_task t s = Returns (task_id t) s' ∧
    task_queue s' = task_queue s ++ [length (tasks s)] ∧
    tasks s' = tasks s ++ [t] ∧
    tasks s' !! length (tasks s) = Some t ∧
    result_store s' = result_store s ∧
    active_tasks s' = active_tasks s ∧
    quantum_state s' = quantum_state s.
Proof.
  eexists. split; [apply submit_task_outcome|]. simpl.
  repeat split. by rewrite lookup_app_r, Nat.sub_diag by lia.
Qed.

(** C3 fails as stated: a task without type, input and metadata is not
    rejected; it is enqueued and its identifier returned. *)
Lemma incomplete_task_is_enqueued :
  missing_required_field incomplete_task ∧
  ∃ s',
    submit_task incomplete_task __init__ = Returns "t2" s' ∧
    task_queue s' = [0] ∧
    tasks s' !! 0 = Some incomplete_task.
Proof.
  split; [by left|]. eexists.
  split; [apply submit_task_outcome|]. by split.
Qed.

Lemma mark_running_returns l t s :
  mark_running l t s = Returns tt (final (mark_running l t s)).
Proof. reflexivity. Qed.

Lemma record_failure_returns l t e s :
  record_failure l t e s =
  Returns tt
    (set_result_store
       (<[task_id t := Failed (str_exn e) (clock s)]> (result_store s))
       (set_clock (S (clock s))
          (set_tasks (alter (set_status "failed") l (tasks s)) s))).
Proof. reflexivity. Qed.

(** The backends of the source read the orchestrator and write nothing. *)
Lemma route_frame t s : final (_route_to_ai_model t s) = s.
Proof.
  unfold _route_to_ai_model, _trinity_hybrid_inference, _claude_inference,
    _local_llama_inference, _fallback_inference, read_quantum_state.
  destruct (model_preference t) as [[]|]; py_run; by destruct (quantum_state s).
Qed.

(** When the awaited backend raises, the handler runs and nothing is
    raised. *)
Lemma execute_failure route l s t e s2 :
  tasks s !! l = Some t →
  routable t →
  route t (final (mark_running l t s)) = Raises e s2 →
  execute_with route l s = record_failure l t e s2.
Proof.
  intros Ht [m Hm] Hroute.
  unfold execute_with. unfold bind at 1. unfold get at 1. rewrite Ht.
  unfold model_value. rewrite Hm. unfold bind at 1. unfold ret at 1.
  unfold bind at 1. rewrite mark_running_returns.
  unfold try_except. unfold bind at 1. by rewrite Hroute.
Qed.

(** A round of the loop returns whatever happens in it. *)
Lemma round_returns s :
  ∃ s1, orchestration_round s = Returns tt s1 ∧ is_running s1 = is_running s.
Proof.
  unfold orchestration_round, try_except. unfold bind at 1.
  rewrite process_outcome.
  pose proof (execute_all_keeps_running (dequeue_order s) s) as Hrun.
  destruct (execute_all (dequeue_order s) s) as [[] s1|e s1];
    cbn [with_queue final] in *.
  - destruct s1 as [? ? a [q|] ? ? ? ?]; simpl in Hrun; subst;
      unfold _update_quantum_state, read_quantum_state, _evolve_consciousness,
        _cleanup_tasks; py_run; case_decide; py_run; eauto.
  - eexists. split; [reflexivity|]. exact Hrun.
Qed.

Lemma loop_returns rounds : ∀ s,
  ∃ s1, _orchestration_loop rounds s = Returns tt s1 ∧
        is_running s1 = is_running s.
Proof.
  induction rounds as [|n IH]; intros s; [by exists s|].
  cbn [_orchestration_loop]. unfold bind at 1. unfold get at 1.
  destruct (is_running s) eqn:Hrun; [|by exists s].
  unfold bind. destruct (round_returns s) as (s1 & -> & Hrun1).
  destruct (IH s1) as (s2 & -> & Hrun2). exists s2. split; [done|congruence].
Qed.

(** C9. [_execute_ai_task] awaits the backend inside its [try].  Whatever
    the awaited backend is, when it raises for a task the exception is
    caught there: the status of the task becomes failed, a result record
    with the text of the exception is stored under the task identifier,
    where [get_task_result] finds it, and [_execute_ai_task] returns, so
    that nothing reaches the loop.  Every round of the orchestration loop
    returns as well, whatever state it starts in, and the loop goes on as
    long as [is_running] holds. *)
Theorem task_failure_is_contained route s task t e :
  tasks s !! task = Some t →
  routable t →
  route t (final (mark_running task t s)) =
    Raises e (final (mark_running task t s)) →
  ∃ s',
    execute_with route task s = Returns tt s' ∧
    status <$> tasks s' !! task = Some "failed" ∧
    get_task_result (task_id t) s' = Some (Failed (str_exn e) (clock s)) ∧
    is_running s' = is_running s ∧
    task_queue s' = task_queue s ∧
    quantum_state s' = quantum_state s ∧
    (∀ s0, ∃ s1, orchestration_round s0 = Returns tt s1 ∧
                 is_running s1 = is_running s0) ∧
    (∀ rounds s0, ∃ s1, _orchestration_loop rounds s0 = Returns tt s1 ∧
                        is_running s1 = is_running s0).
Proof.
  intros Ht Hroutable Hroute.
  assert (Hexec : execute_with route task s =
                  record_failure task t e (final (mark_running task t s)))
    by exact (execute_failure _ _ _ _ _ _ Ht Hroutable Hroute).
  eexists. split.
  { rewrite Hexec. apply record_failure_returns. }
  split; [|split; [|split; [|split; [|split; [|split]]]]].
  - simpl. by rewrite !list_lookup_alter_eq, Ht.
  - unfold get_task_result. simpl. by rewrite lookup_insert_eq.
  - done.
  - done.
  - done.
  - apply round_returns.
  - intros rounds s0. apply loop_returns.
Qed.

Lemma task_failure_is_contained_witness :
  (∃ s',
     execute_with _route_to_ai_model 0 hybrid_queued = Returns tt s' ∧
     status <$> tasks s' !! 0 = Some "failed" ∧
     get_task_result "h" s' =
       Some (Failed "'NoneType' object has no attribute 'quantum_coherence'"
               0) ∧
     is_running s' = is_running hybrid_queued ∧
     task_queue s' = task_queue hybrid_queued ∧
     quantum_state s' = quantum_state hybrid_queued ∧
     (∀ s0, ∃ s1, orchestration_round s0 = Returns tt s1 ∧
                  is_running s1 = is_running s0) ∧
     (∀ rounds s0, ∃ s1, _orchestration_loop rounds s0 = Returns tt s1 ∧
                         is_running s1 = is_running s0)) ∧
  (∃ s',
     execute_with unavailable 0 started_queued = Returns tt s' ∧
     status <$> tasks s' !! 0 = Some "failed" ∧
     get_task_result "A" s' = Some (Failed "backend unavailable" 1) ∧
     is_running s' = is_running started_queued ∧
     task_queue s' = task_queue started_queued ∧
     quantum_state s' = quantum_state started_queued ∧
     (∀ s0, ∃ s1, orchestration_round s0 = Returns tt s1 ∧
                  is_running s1 = is_running s0) ∧
     (∀ rounds s0, ∃ s1, _orchestration_loop rounds s0 = Returns tt s1 ∧
                         is_running s1 = is_running s0)).
Proof.
  split.
  - apply (task_failure_is_contained _route_to_ai_model hybrid_queued 0
             hybrid_task
             (AttributeError
                "'NoneType' object has no attribute 'quantum_coherence'"));
      [reflexivity|by eexists|reflexivity].
  - apply (task_failure_is_contained unavailable started_queued 0 first_task
             (ValueError "backend unavailable"));
      [reflexivity|by eexists|reflexivity].
Defined.

Lemma advanced_refl s : advanced s s.
Proof. repeat split; eauto. Qed.

Lemma advanced_trans s1 s2 s3 : advanced s1 s2 → advanced s2 s3 → advanced s1 s3.
Proof.
  intros (Hq1 & Hr1 & Ht1 & Hs1) (Hq2 & Hr2 & Ht2 & Hs2).
  split; [congruence|]. split; [congruence|]. split; [|by eauto].
  intros l t Hl. destruct (Ht1 l t Hl) as (t' & Hl' & Hid' & Hdep' & Hst').
  destruct (Ht2 l t' Hl') as (t'' & Hl'' & Hid'' & Hdep'' & Hst'').
  exists t''. repeat split; [done|congruence|congruence|auto].
Qed.

Lemma execute_advances l s q :
  quantum_state s = Some q →
  (∀ t, tasks s !! l = Some t → routable t) →
  advanced s (final (_execute_ai_task l s)) ∧
  ∀ t, tasks s !! l = Some t →
       ∃ t', tasks (final (_execute_ai_task l s)) !! l = Some t' ∧
             status t' = "completed" ∧
             completed (result_store (final (_execute_ai_task l s))
                          !! task_id t).
Proof.
  intros Hq Hroutable. destruct (tasks s !! l) as [t|] eqn:Ht.
  - destruct (execute_started l s t q Ht (Hroutable t eq_refl) Hq) as [r ->].
    split.
    + split; [done|]. split; [done|]. split; simpl.
      * intros l' t0 Hl'. destruct (decide (l' = l)) as [->|Hne].
        -- rewrite !list_lookup_alter_eq, Hl'. eexists. by split.
        -- rewrite !list_lookup_alter_ne by done. eauto.
      * intros id Hid. destruct (decide (id = task_id t)) as [->|Hne].
        -- rewrite lookup_insert_eq. by eexists _, _, _.
        -- by rewrite lookup_insert_ne.
    + intros t0 [= <-]. simpl. rewrite !list_lookup_alter_eq, Ht.
      eexists. split; [done|]. split; [done|].
      rewrite lookup_insert_eq. by eexists _, _, _.
  - rewrite (execute_dangling l s Ht). split; [apply advanced_refl|done].
Qed.

Lemma execute_all_advances order : ∀ s q,
  quantum_state s = Some q →
  all_routable order s →
  advanced s (final (execute_all order s)) ∧
  ∀ l t, l ∈ order → tasks s !! l = Some t →
         ∃ t', tasks (final (execute_all order s)) !! l = Some t' ∧
               status t' = "completed" ∧
               dependencies t' = dependencies t ∧
               completed (result_store (final (execute_all order s))
                            !! task_id t).
Proof.
  induction order as [|l0 order IH]; intros s q Hq Hall.
  - split; [apply advanced_refl|]. intros l t Hl. by apply elem_of_nil in Hl.
  - apply all_routable_cons in Hall as [Hl0 Hall].
    cbn [execute_all]. unfold bind. rewrite (execute_returns l0 s Hl0).
    destruct (execute_advances l0 s q Hq Hl0) as [Hadv Hdone].
    pose proof (execute_keeps_routable l0 order s Hall) as Hall1.
    set (s1 := final (_execute_ai_task l0 s)) in *.
    assert (Hq1 : quantum_state s1 = Some q).
    { destruct Hadv as [-> _]. done. }
    destruct (IH s1 q Hq1 Hall1) as [Hadv1 Hdone1].
    split; [by eapply advanced_trans|].
    intros l t Hl Ht.
    destruct Hadv as (_ & _ & Htasks & _).
    destruct (Htasks l t Ht) as (t1 & Ht1 & Hid1 & Hdep1 & _).
    destruct (decide (l ∈ order)) as [Hin|Hin].
    + destruct (Hdone1 l t1 Hin Ht1) as (t' & Ht' & Hst' & Hdep' & Hres').
      exists t'. repeat split; [done|done|congruence|by rewrite <-Hid1].
    + apply elem_of_cons in Hl as [->|Hl]; [|done].
      destruct (Hdone t Ht) as (t1' & Ht1' & Hst1 & Hres1).
      assert (t1' = t1) as -> by congruence.
      destruct Hadv1 as (_ & _ & Htasks1 & Hkeep1).
      destruct (Htasks1 l0 t1 Ht1) as (t' & Ht' & _ & Hdep' & Hst').
      exists t'. repeat split; [done|auto|congruence|auto].
Qed.

(** C2, as the code has it.  The orchestrator does not look at dependency
    sets.  Once it is started, every task in a queue of tasks that name a
    backend is dequeued and handed to its backend, whatever tasks it names
    as dependencies and whatever became of them, and ends with status
    completed and a result stored under its identifier. *)
Theorem dependencies_are_not_consulted s q :
  quantum_state s = Some q →
  all_routable (task_queue s) s →
  ∃ s',
    _process_task_queue s = Returns tt s' ∧
    task_queue s' = [] ∧
    ∀ l t, l ∈ task_queue s → tasks s !! l = Some t →
           ∃ t', tasks s' !! l = Some t' ∧
                 status t' = "completed" ∧
                 dependencies t' = dependencies t ∧
                 completed (result_store s' !! task_id t).
Proof.
  intros Hq Hall. eexists. split; [by apply process_routable|].
  split; [done|].
  intros l t Hl Ht. simpl.
  unfold dequeue_order. rewrite Queue_drain_all.
  by apply (execute_all_advances (task_queue s) s q Hq Hall).
Qed.

Lemma dependencies_are_not_consulted_witness :
  ∃ s',
    _process_task_queue dependent_queued = Returns tt s' ∧
    task_queue s' = [] ∧
    ∀ l t, l ∈ task_queue dependent_queued →
           tasks dependent_queued !! l = Some t →
           ∃ t', tasks s' !! l = Some t' ∧
                 status t' = "completed" ∧
                 dependencies t' = dependencies t ∧
                 completed (result_store s' !! task_id t).
Proof.
  refine (dependencies_are_not_consulted dependent_queued _ _ _).
  - reflexivity.
  - intros l t Hl Ht. apply list_elem_of_singleton in Hl as ->.
    injection Ht as <-. by eexists.
Defined.

(** C2 fails as stated.  Task B names task A as its dependency.  When A
    has failed, B is still handed to its backend and completes; and when B
    is submitted before A, B is dequeued and completes while A is still
    pending. *)
Lemma failed_dependency_is_ignored :
  (task_id <$> tasks dependent_queued !! 0 = Some "A" ∧
   status <$> tasks dependent_queued !! 0 = Some "failed" ∧
   dependencies <$> tasks dependent_queued !! 1 = Some ["A"] ∧
   task_queue dependent_queued = [1] ∧
   status <$> tasks dependent_ran !! 1 = Some "completed" ∧
   completed (result_store dependent_ran !! "B")) ∧
  (dependencies <$> tasks dependent_first !! 0 = Some ["A"] ∧
   status <$> tasks dependent_first !! 0 = Some "completed" ∧
   task_id <$> tasks dependent_first !! 1 = Some "A" ∧
   status <$> tasks dependent_first !! 1 = Some "pending").
Proof.
  split.
  - split; [vm_compute; reflexivity|]. split; [vm_compute; reflexivity|].
    split; [vm_compute; reflexivity|]. split; [vm_compute; reflexivity|].
    split; [vm_compute; reflexivity|].
    eexists _, _, _. vm_compute. reflexivity.
  - split; [vm_compute; reflexivity|]. split; [vm_compute; reflexivity|].
    split; vm_compute; reflexivity.
Qed.

End TaskFacts.

(** ** Fingerprints and the response cache *)

Section FingerprintFacts.
Import Trinity.
Local Open Scope nat_scope.
Local Open Scope list_scope.

Lemma json_induction (P : json → Prop) :
  P JNull →
  (∀ b, P (JBool b)) →
  (∀ n, P (JInt n)) →
  (∀ x, P (JFloat x)) →
  (∀ text, P (JStr text)) →
  (∀ items, Forall P items → P (JList items)) →
  (∀ items, Forall (λ kv, P (snd kv)) items → P (JDict items)) →
  ∀ obj, P obj.
Proof.
  intros Hnull Hbool Hint Hfloat Hstr Hlist Hdict.
  fix go 1. intros [| b | n | x | text | items | items].
  - exact Hnull.
  - apply Hbool.
  - apply Hint.
  - apply Hfloat.
  - apply Hstr.
  - apply Hlist. induction items as [|obj items IH]; constructor.
    + apply go.
    + exact IH.
  - apply Hdict. induction items as [|[k obj] items IH]; constructor.
    + apply go.
    + exact IH.
Qed.

Lemma forallb_Forall {A} (f : A → bool) (xs : list A) :
  forallb f xs = true → Forall (λ x, f x = true) xs.
Proof.
  rewrite forallb_forall, Forall_forall. intros H x Hx.
  by apply H, list_elem_of_In.
Qed.

Global Instance key_le_transitive {A} : Transitive (@key_le A).
Proof. intros x y z. unfold key_le. apply transitivity. Qed.

Global Instance key_le_total {A} : Total (@key_le A).
Proof. intros x y. unfold key_le. apply total, _. Qed.

Lemma distinct_keys_unique {A} (items : list (string * A)) k v1 v2 :
  NoDup (map fst items) → (k, v1) ∈ items → (k, v2) ∈ items → v1 = v2.
Proof.
  induction items as [|[k' v'] items IH]; simpl; intros Hnd H1 H2.
  - by apply elem_of_nil in H1.
  - apply NoDup_cons in Hnd as [Hk' Hnd].
    apply elem_of_cons in H1 as [H1|H1];
      apply elem_of_cons in H2 as [H2|H2].
    + congruence.
    + injection H1 as -> ->. exfalso. apply Hk'.
      apply list_elem_of_fmap. by exists (k', v2).
    + injection H2 as -> ->. exfalso. apply Hk'.
      apply list_elem_of_fmap. by exists (k', v1).
    + auto.
Qed.

(** Sorting by key gives one result for all orders of the same items. *)
Lemma sort_keys_canonical {A} (items1 items2 : list (string * A)) :
  NoDup (map fst items1) → items1 ≡ₚ items2 →
  merge_sort key_le items1 = merge_sort key_le items2.
Proof.
  intros Hnd Hperm.
  apply (StronglySorted_unique_strong key_le).
  - intros [k1 v1] [k2 v2] Hin1 Hin2 Hle1 Hle2.
    rewrite merge_sort_Permutation in Hin1, Hin2. rewrite <-Hperm in Hin2.
    unfold key_le in Hle1, Hle2. simpl in Hle1, Hle2.
    assert (k1 = k2) as -> by (by apply (anti_symm String.le)).
    f_equal. by eapply distinct_keys_unique.
  - apply StronglySorted_merge_sort; apply _.
  - apply StronglySorted_merge_sort; apply _.
  - by rewrite !merge_sort_Permutation.
Qed.

Section Dumps.

Variable float_repr : float → string.

Let encode_item : string * json → string * string :=
  λ '(k, v), (k, dumps float_repr v).

Lemma dumps_dict items :
  dumps float_repr (JDict items) =
  ("{" +:+
   String.concat ", "
     (map (λ kv, encode_str (fst kv) +:+ ": " +:+ snd kv)
        (merge_sort key_le (map encode_item items))) +:+
   "}")%string.
Proof. reflexivity. Qed.

Lemma encode_item_key items : map fst (map encode_item items) = map fst items.
Proof.
  induction items as [|[k v] items IH]; simpl; [done|]. by rewrite IH.
Qed.

(** [json.dumps(..., sort_keys=True)] does not see the order of fields. *)
Lemma dumps_reordered obj1 :
  distinct_keys obj1 = true →
  ∀ obj2, reordered obj1 obj2 → dumps float_repr obj1 = dumps float_repr obj2.
Proof.
  induction obj1 as [| b | n | x | text | items1 IH | items1 IH]
    using json_induction; intros Hdistinct obj2 Hre;
    inversion Hre as [obj | l1 l2 Hall | d1 d d2 Hperm Hall]; subst;
    try reflexivity.
  - simpl in Hdistinct. apply forallb_Forall in Hdistinct.
    assert (Hmap : map (dumps float_repr) items1 = map (dumps float_repr) l2).
    { clear Hre. induction Hall as [|o1 o2 l1 l2 Ho Hall IHall]; [done|].
      apply Forall_cons in IH as [IHo IH].
      apply Forall_cons in Hdistinct as [Hd1 Hd].
      simpl. f_equal; [by apply IHo|by apply IHall]. }
    simpl. by rewrite Hmap.
  - simpl in Hdistinct. apply andb_prop in Hdistinct as [Hnd Hd].
    apply bool_decide_eq_true in Hnd.
    assert (Hvalues : Forall (λ kv, distinct_keys (snd kv) = true) items1).
    { apply forallb_Forall in Hd. eapply Forall_impl; [exact Hd|].
      by intros [k v]. }
    assert (Hmap : map encode_item d = map encode_item d2).
    { rewrite Hperm in IH, Hvalues. clear Hre Hperm Hnd Hd.
      induction Hall as [|[k1 v1] [k2 v2] l1 l2 [Hk Hv] Hall IHall]; [done|].
      apply Forall_cons in IH as [IHv IH].
      apply Forall_cons in Hvalues as [Hv1 Hvalues].
      simpl in *. subst k2. f_equal; [|by apply IHall].
      f_equal. by apply IHv. }
    rewrite !dumps_dict, <-Hmap.
    rewrite (sort_keys_canonical (map encode_item items1) (map encode_item d));
      [done| by rewrite encode_item_key | by apply (fmap_Permutation encode_item)].
Qed.

End Dumps.

Lemma route_request_pure data :
  (∃ nm, ∀ s, _route_request data s = Returns nm s) ∨
  (∃ e, ∀ s, _route_request data s = Raises e s).
Proof.
  unfold _route_request.
  destruct (dict_get "prompt" data) as [[]|]; py_run;
    try (right; eexists; reflexivity);
    repeat match goal with
           | |- context [if ?b then _ else _] => destruct b
           end;
    left; eexists; reflexivity.
Qed.

Lemma generate_returns nm data s answer s1 :
  _generate_response nm data s = Returns answer s1 →
  s1 = set_clock (S (clock s)) s.
Proof.
  unfold _generate_response, datetime_now. py_run.
  destruct (agents s !! nm); [|done].
  destruct (dict_get "prompt" data) as [[]|]; py_run; by intros [= _ <-].
Qed.

(** What a request that is resumed after its sleep and returns has done. *)
Lemma resume_returns p s answer s' :
  process_request_resume p s = Returns answer s' →
  response_cache s' = <[pending_key p := answer]> (response_cache s) ∧
  log s' =
    log s ++
    [(INFO, "Request " +:+ pretty (request_id p) +:+
            " processed by " +:+ agent_name p)].
Proof.
  unfold process_request_resume, try_except. unfold bind at 1.
  destruct (_generate_response (agent_name p) (request_data p) s)
    as [r s1|e s1] eqn:Hgen.
  - apply generate_returns in Hgen as ->.
    unfold update_agent, logger. py_run. by intros [= <- <-].
  - unfold update_agent, logger. py_run. done.
Qed.

Section Requests.

Variable float_repr : float → string.
Variable md5_hexdigest : string → string.

Local Abbreviation key := (cache_key float_repr md5_hexdigest).
Local Abbreviation begin := (process_request_begin float_repr md5_hexdigest).
Local Abbreviation process := (process_request float_repr md5_hexdigest).

Lemma begin_hit data s cached :
  response_cache s !! key data = Some cached →
  begin data s =
  Returns (CacheHit cached)
    (set_log (log s ++ [(INFO, "Cache hit for request " +:+ pretty (draws s))])
       (set_clock (S (clock s)) (set_draws (S (draws s)) s))).
Proof.
  intros Hhit. unfold begin, process_request_begin, uuid4, datetime_now, logger.
  py_run. by rewrite Hhit.
Qed.

Lemma begin_returns data s started s1 :
  begin data s = Returns started s1 →
  response_cache s1 = response_cache s ∧
  match started with
  | CacheHit cached => response_cache s !! key data = Some cached
  | Suspended p => pending_key p = key data
  end.
Proof.
  unfold begin, process_request_begin, uuid4, datetime_now, logger,
    update_agent.
  py_run.
  destruct (response_cache s !! key data) as [cached|] eqn:Hlook.
  - by intros [= <- <-].
  - destruct (route_request_pure data) as [[nm Hnm]|[e He]].
    + rewrite Hnm. destruct (agents s !! nm); [|done]. by intros [= <- <-].
    + by rewrite He.
Qed.

(** A request that is answered leaves its answer in the cache under its
    fingerprint. *)
Lemma process_caches data s answer s1 :
  process data s = Returns answer s1 →
  response_cache s1 !! key data = Some answer.
Proof.
  unfold process, process_request. unfold bind at 1.
  destruct (begin data s) as [[cached|p] s0|e s0] eqn:Hbegin; [| |done].
  - apply begin_returns in Hbegin as [Hcache Hhit].
    intros [= <- <-]. by rewrite Hcache.
  - apply begin_returns in Hbegin as [Hcache Hkey].
    intros Hresume. apply resume_returns in Hresume as [-> _].
    rewrite Hkey. apply lookup_insert_eq.
Qed.

(** C10. A request whose fingerprint is in the response cache gets the
    cached value, and nothing else changes: the agents, with their status
    and their counters of processed requests and of errors, the global
    counter of processed requests, and the cache are as before. *)
Theorem cache_hit_leaves_metrics_unchanged data s cached :
  response_cache s !! cache_key float_repr md5_hexdigest data = Some cached →
  ∃ s',
    process_request float_repr md5_hexdigest data s = Returns cached s' ∧
    agents s' = agents s ∧
    objects s' = objects s ∧
    consciousness_state s' = consciousness_state s ∧
    total_processed (consciousness_state s') =
      total_processed (consciousness_state s) ∧
    response_cache s' = response_cache s.
Proof.
  intros Hhit. eexists. split.
  - unfold process, process_request. unfold bind at 1.
    rewrite (begin_hit _ _ _ Hhit). reflexivity.
  - done.
Qed.

(** C7, as the code has it.  Two payloads that are the same up to the
    order of their fields have the same fingerprint.  Once the first has
    returned its answer, the second is answered from the cache with the
    same value, and no agent is touched.  As long as the cache has no entry
    under the fingerprint, because the first request is still asleep or
    has raised, the second is not answered from the cache: it goes on to
    routing, and waits for its agent under the same fingerprint unless
    routing raises. *)
Theorem reordered_requests_share_fingerprint data1 data2 :
  reordered (JDict data1) (JDict data2) →
  distinct_keys (JDict data1) = true →
  cache_key float_repr md5_hexdigest data1 =
    cache_key float_repr md5_hexdigest data2 ∧
  (∀ s answer s1,
     process_request float_repr md5_hexdigest data1 s = Returns answer s1 →
     ∃ s2,
       process_request_begin float_repr md5_hexdigest data2 s1 =
         Returns (CacheHit answer) s2 ∧
       process_request float_repr md5_hexdigest data2 s1 = Returns answer s2 ∧
       agents s2 = agents s1 ∧
       objects s2 = objects s1 ∧
       consciousness_state s2 = consciousness_state s1 ∧
       response_cache s2 = response_cache s1) ∧
  (∀ s started s2,
     response_cache s !! cache_key float_repr md5_hexdigest data1 = None →
     process_request_begin float_repr md5_hexdigest data2 s =
       Returns started s2 →
     ∃ p, started = Suspended p ∧
          pending_key p = cache_key float_repr md5_hexdigest data1).
Proof.
  intros Hre Hdistinct.
  assert (Hkey : key data1 = key data2).
  { unfold key, cache_key. f_equal. by apply dumps_reordered. }
  split; [exact Hkey|]. split.
  - intros s answer s1 Hfirst.
    apply process_caches in Hfirst. rewrite Hkey in Hfirst.
    eexists. split; [by apply begin_hit|].
    split; [|done].
    unfold process, process_request. unfold bind at 1.
    by rewrite (begin_hit _ _ _ Hfirst).
  - intros s started s2 Hmiss Hbegin.
    apply begin_returns in Hbegin as [_ Hstarted].
    rewrite Hkey in Hmiss.
    destruct started as [cached|p]; [congruence|].
    exists p. by rewrite Hkey.
Qed.

End Requests.

(** C4, as the code has it.  A store writes the new result under the
    fingerprint, over whatever entry was there; nothing about the entry it
    replaces is logged: the one record the store leaves in the log is the
    INFO record of the processed request, the same for every store. *)
Theorem store_overwrites_without_notice p s answer s' :
  process_request_resume p s = Returns answer s' →
  response_cache s' !! pending_key p = Some answer ∧
  response_cache s' = <[pending_key p := answer]> (response_cache s) ∧
  log s' =
    log s ++
    [(INFO, "Request " +:+ pretty (request_id p) +:+
            " processed by " +:+ agent_name p)].
Proof.
  intros Hresume. apply resume_returns in Hresume as [Hcache Hlog].
  split; [|done]. rewrite Hcache. apply lookup_insert_eq.
Qed.

End FingerprintFacts.

(** ** The properties at concrete requests *)

Section RequestExamples.
Import Trinity Requests.
Local Open Scope list_scope.

Lemma payload_reordered : reordered (JDict payload) (JDict payload_permuted).
Proof.
  apply (reordered_dict _ payload_permuted).
  - apply perm_swap.
  - repeat constructor.
Qed.

Lemma cache_hit_leaves_metrics_unchanged_witness :
  ∃ cached s',
    response_cache answered !! cache_key fixed_repr plain_digest payload =
      Some cached ∧
    process_request fixed_repr plain_digest payload answered =
      Returns cached s' ∧
    agents s' = agents answered ∧
    objects s' = objects answered ∧
    consciousness_state s' = consciousness_state answered ∧
    total_processed (consciousness_state s') =
      total_processed (consciousness_state answered) ∧
    response_cache s' = response_cache answered.
Proof.
  eexists. 
  assert (Hhit : response_cache answered
                   !! cache_key fixed_repr plain_digest payload =
                 Some (mkResponse "claude"
                         "Claude Strategic Analysis: analyze strategy..."
                         8 0.5 0.95 ["analysis"; "reasoning"]))
    by (vm_compute; reflexivity).
  destruct (cache_hit_leaves_metrics_unchanged fixed_repr plain_digest
              payload answered _ Hhit) as (s' & Hs').
  exists s'. split; [exact Hhit|exact Hs'].
Defined.

Lemma reordered_requests_share_fingerprint_witness :
  cache_key fixed_repr plain_digest payload =
    cache_key fixed_repr plain_digest payload_permuted ∧
  (∀ s answer s1,
     process_request fixed_repr plain_digest payload s = Returns answer s1 →
     ∃ s2,
       process_request_begin fixed_repr plain_digest payload_permuted s1 =
         Returns (CacheHit answer) s2 ∧
       process_request fixed_repr plain_digest payload_permuted s1 =
         Returns answer s2 ∧
       agents s2 = agents s1 ∧
       objects s2 = objects s1 ∧
       consciousness_state s2 = consciousness_state s1 ∧
       response_cache s2 = response_cache s1) ∧
  (∀ s started s2,
     response_cache s !! cache_key fixed_repr plain_digest payload = None →
     process_request_begin fixed_repr plain_digest payload_permuted s =
       Returns started s2 →
     ∃ p, started = Suspended p ∧
          pending_key p = cache_key fixed_repr plain_digest payload).
Proof.
  apply (reordered_requests_share_fingerprint fixed_repr plain_digest
           payload payload_permuted).
  - exact payload_reordered.
  - reflexivity.
Defined.

Lemma numeric_reordered :
  reordered (JDict numeric_payload) (JDict numeric_permuted).
Proof.
  apply (reordered_dict _ numeric_permuted).
  - apply perm_swap.
  - repeat constructor.
Qed.

(** C7 fails as stated.  The permuted payload arrives while the request
    with the payload itself is asleep: the cache has no entry yet, so the
    second request is routed to the agent as well and the agent answers
    both.  And when the prompt is a number, the first request raises in
    routing and nothing is cached: the second raises in the same way. *)
Lemma overlapping_reordered_requests_miss_cache :
  (reordered (JDict payload) (JDict payload_permuted) ∧
   distinct_keys (JDict payload) = true ∧
   process_request_begin fixed_repr plain_digest payload ready =
     Returns (Suspended first_pending) first_waiting ∧
   process_request_begin fixed_repr plain_digest payload_permuted
       first_waiting =
     Returns (Suspended permuted_pending) permuted_waiting ∧
   ∃ first second,
     process_request_resume first_pending permuted_waiting =
       Returns first first_answered ∧
     process_request_resume permuted_pending first_answered =
       Returns second permuted_answered ∧
     first ≠ second ∧
     processed_requests <$> objects permuted_answered !! 0 = Some 2%Z ∧
     total_processed (consciousness_state permuted_answered) = 2%Z) ∧
  (reordered (JDict numeric_payload) (JDict numeric_permuted) ∧
   distinct_keys (JDict numeric_payload) = true ∧
   process_request fixed_repr plain_digest numeric_payload ready =
     Raises (AttributeError "'int' object has no attribute 'lower'")
       numeric_refused ∧
   response_cache numeric_refused = ∅ ∧
   ∃ s2,
     process_request fixed_repr plain_digest numeric_permuted numeric_refused =
       Raises (AttributeError "'int' object has no attribute 'lower'") s2 ∧
     response_cache s2 = ∅).
Proof.
  split.
  - split; [exact payload_reordered|]. split; [reflexivity|].
    split; [vm_compute; reflexivity|]. split; [vm_compute; reflexivity|].
    eexists _, _.
    split; [vm_compute; reflexivity|]. split; [vm_compute; reflexivity|].
    split; [discriminate|].
    split; vm_compute; reflexivity.
  - split; [exact numeric_reordered|]. split; [reflexivity|].
    split; [vm_compute; reflexivity|]. split; [vm_compute; reflexivity|].
    eexists. split; vm_compute; reflexivity.
Qed.

(** The permuted payload after the payload itself: a cache hit. *)
Example permuted_request_hits_cache :
  ∃ answer s2,
    process_request fixed_repr plain_digest payload ready =
      Returns answer answered ∧
    process_request_begin fixed_repr plain_digest payload_permuted answered =
      Returns (CacheHit answer) s2 ∧
    objects s2 = objects answered.
Proof.
  eexists _, _. split; [vm_compute; reflexivity|].
  split; vm_compute; reflexivity.
Qed.

Lemma store_overwrites_without_notice_witness :
  ∃ answer,
    process_request_resume second_pending first_stored =
      Returns answer second_stored ∧
    response_cache second_stored !! pending_key second_pending = Some answer ∧
    response_cache second_stored =
      <[pending_key second_pending := answer]> (response_cache first_stored) ∧
    log second_stored =
      log first_stored ++
      [(INFO, "Request " +:+ pretty (request_id second_pending) +:+
              " processed by " +:+ agent_name second_pending)].
Proof.
  eexists. split; [vm_compute; reflexivity|].
  apply (store_overwrites_without_notice second_pending first_stored).
  vm_compute. reflexivity.
Defined.

(** C4 fails as stated.  Two requests with the same payload are asleep at
    the same time; the first stores its answer, then the second stores a
    different one over it, and the log has no record about that: every
    record in it is an INFO record, the last one that of the processed
    request. *)
Lemma cache_entry_overwritten_silently :
  process_request_begin fixed_repr plain_digest payload ready =
    Returns (Suspended first_pending) first_waiting ∧
  process_request_begin fixed_repr plain_digest payload first_waiting =
    Returns (Suspended second_pending) both_waiting ∧
  ∃ old new,
    process_request_resume first_pending both_waiting =
      Returns old first_stored ∧
    response_cache first_stored !! pending_key second_pending = Some old ∧
    process_request_resume second_pending first_stored =
      Returns new second_stored ∧
    old ≠ new ∧
    response_cache second_stored !! pending_key second_pending = Some new ∧
    log second_stored =
      log first_stored ++ [(INFO, "Request 1 processed by claude")] ∧
    Forall (λ record, fst record = INFO) (log second_stored).
Proof.
  split; [vm_compute; reflexivity|]. split; [vm_compute; reflexivity|].
  eexists _, _.
  split; [vm_compute; reflexivity|]. split; [vm_compute; reflexivity|].
  split; [vm_compute; reflexivity|]. split; [discriminate|].
  split; [vm_compute; reflexivity|]. split; [vm_compute; reflexivity|].
  vm_compute. repeat constructor.
Qed.

End RequestExamples.

(** ** More on the life of a task *)

Section LifecycleFacts.
Import Quantum Tasks Lifecycle.
Local Open Scope nat_scope.
Local Open Scope list_scope.

(** X1. What [_execute_ai_task] does to a task depends on its model
    preference.  A task that names a backend always ends in a terminal
    status with a result of the same kind under its identifier: completed
    with a result when the orchestrator has a state vector, failed with an
    error record when it has none; the task is entered in [active_tasks],
    and no other task object and no result or active entry under another
    identifier changes.  A task without a model preference makes
    [_execute_ai_task] raise at its log line, outside the [try]: nothing is
    written, so the task keeps its status, gets no result and is not
    entered in [active_tasks]. *)
Theorem execution_ends_terminal_or_raises_at_once s l t :
  tasks s !! l = Some t →
  (routable t →
   ∃ s' t',
     _execute_ai_task l s = Returns tt s' ∧
     tasks s' !! l = Some t' ∧
     task_id t' = task_id t ∧
     active_tasks s' !! task_id t = Some l ∧
     ((is_Some (quantum_state s) ∧ status t' = "completed" ∧
       completed (get_task_result (task_id t) s')) ∨
      (quantum_state s = None ∧ status t' = "failed" ∧
       ∃ msg at_, get_task_result (task_id t) s' = Some (Failed msg at_))) ∧
     (∀ l', l' ≠ l → tasks s' !! l' = tasks s !! l') ∧
     (∀ id, id ≠ task_id t →
            get_task_result id s' = get_task_result id s ∧
            active_tasks s' !! id = active_tasks s !! id)) ∧
  (model_preference t = None →
   _execute_ai_task l s =
   Raises (AttributeError "'NoneType' object has no attribute 'value'") s).
Proof.
  intros Ht. split; [|by apply execute_unroutable].
  intros Hroutable. exists (final (_execute_ai_task l s)).
  rewrite (execute_returns l s) by (intros t0 Ht0; congruence).
  destruct (quantum_state s) as [q|] eqn:Hq.
  - destruct (execute_started l s t q Ht Hroutable Hq) as [r Hr].
    rewrite Hr. unfold get_task_result. simpl.
    eexists. split; [done|].
    split; [by rewrite !list_lookup_alter_eq, Ht|].
    split; [done|]. split; [apply lookup_insert_eq|].
    split.
    + left. split; [by eexists|]. split; [done|].
      rewrite lookup_insert_eq. by eexists _, _, _.
    + split.
      * intros l' Hne. by rewrite !list_lookup_alter_ne.
      * intros id Hne. by rewrite !lookup_insert_ne.
  - destruct (execute_unstarted l s t Ht Hroutable Hq)
      as (msg & at_ & now & Hr).
    rewrite Hr. unfold get_task_result. simpl.
    eexists. split; [done|].
    split; [by rewrite !list_lookup_alter_eq, Ht|].
    split; [done|]. split; [apply lookup_insert_eq|].
    split.
    + right. split; [done|]. split; [done|].
      rewrite lookup_insert_eq. by eexists _, _.
    + split.
      * intros l' Hne. by rewrite !list_lookup_alter_ne.
      * intros id Hne. by rewrite !lookup_insert_ne.
Qed.

Lemma execution_ends_terminal_or_raises_at_once_witness :
  (∃ s' t',
     _execute_ai_task 0 queued = Returns tt s' ∧
     tasks s' !! 0 = Some t' ∧
     task_id t' = "t1" ∧
     active_tasks s' !! "t1" = Some 0 ∧
     ((is_Some (quantum_state queued) ∧ status t' = "completed" ∧
       completed (get_task_result "t1" s')) ∨
      (quantum_state queued = None ∧ status t' = "failed" ∧
       ∃ msg at_, get_task_result "t1" s' = Some (Failed msg at_))) ∧
     (∀ l', l' ≠ 0 → tasks s' !! l' = tasks queued !! l') ∧
     (∀ id, id ≠ "t1" →
            get_task_result id s' = get_task_result id queued ∧
            active_tasks s' !! id = active_tasks queued !! id)) ∧
  _execute_ai_task 0 unrouted_queued =
    Raises (AttributeError "'NoneType' object has no attribute 'value'")
      unrouted_queued.
Proof.
  split.
  - apply (execution_ends_terminal_or_raises_at_once queued 0
             StateVector.example_task); [reflexivity|by eexists].
  - apply (execution_ends_terminal_or_raises_at_once unrouted_queued 0
             unrouted_task); reflexivity.
Defined.

Lemma foldl_delete_lookup {V} (ks : list string) : ∀ (m : gmap string V) id,
  foldl (λ a k, delete k a) m ks !! id =
  if decide (id ∈ ks) then None else m !! id.
Proof.
  induction ks as [|k ks IH]; intros m id; simpl.
  - done.
  - rewrite IH. destruct (decide (id ∈ ks)) as [Hin|Hin].
    + rewrite decide_True by (by right). done.
    + destruct (decide (id = k)) as [->|Hne].
      * rewrite decide_True by left. apply lookup_delete_eq.
      * rewrite decide_False by (rewrite elem_of_cons; by intros [?|?]).
        by apply lookup_delete_ne.
Qed.

Lemma cleanup_outcome s :
  _cleanup_tasks s =
  Returns tt
    (set_active_tasks
       (foldl (λ a id, delete id a) (active_tasks s)
          (map fst
             (List.filter (λ kv, terminal s (snd kv))
                (map_to_list (active_tasks s)))))
       s).
Proof. reflexivity. Qed.

Lemma cleanup_keys s id :
  id ∈ map fst
         (List.filter (λ kv, terminal s (snd kv))
            (map_to_list (active_tasks s))) ↔
  ∃ l, active_tasks s !! id = Some l ∧ terminal s l = true.
Proof.
  rewrite list_elem_of_fmap. split.
  - intros ([id' l] & -> & Hin). simpl.
    apply list_elem_of_In, filter_In in Hin as [Hin Hterm].
    apply list_elem_of_In, elem_of_map_to_list in Hin. eauto.
  - intros (l & Hl & Hterm). exists (id, l). split; [done|].
    apply list_elem_of_In, filter_In. split; [|done].
    by apply list_elem_of_In, elem_of_map_to_list.
Qed.

(** X2. [_cleanup_tasks] retires exactly the active tasks whose status is
    completed or failed and keeps the others; results, task objects, the
    queue and the state vector are untouched, so a retired task's result
    can still be polled. *)
Theorem cleanup_retires_exactly_terminal s :
  ∃ s',
    _cleanup_tasks s = Returns tt s' ∧
    (∀ id,
       active_tasks s' !! id =
       match active_tasks s !! id with
       | Some l => if terminal s l then None else Some l
       | None => None
       end) ∧
    (∀ id, get_task_result id s' = get_task_result id s) ∧
    tasks s' = tasks s ∧
    task_queue s' = task_queue s ∧
    quantum_state s' = quantum_state s.
Proof.
  eexists. split; [apply cleanup_outcome|]. simpl. split; [|done].
  intros id. rewrite foldl_delete_lookup.
  destruct (active_tasks s !! id) as [l|] eqn:Hl.
  - destruct (terminal s l) eqn:Hterm.
    + rewrite decide_True; [done|]. apply cleanup_keys. eauto.
    + rewrite decide_False; [done|]. rewrite cleanup_keys.
      intros (l' & Hl' & Hterm'). congruence.
  - case_decide as Hin; [done|done].
Qed.

Lemma execute_retirable l s q id :
  quantum_state s = Some q →
  (∀ t, tasks s !! l = Some t → routable t) →
  retirable s id ∨ (∃ t, tasks s !! l = Some t ∧ task_id t = id) →
  retirable (final (_execute_ai_task l s)) id.
Proof.
  intros Hq Hroutable Hid. destruct (tasks s !! l) as [t|] eqn:Ht.
  - destruct (execute_started l s t q Ht (Hroutable t eq_refl) Hq) as [r ->].
    unfold retirable. simpl.
    destruct (decide (id = task_id t)) as [->|Hne].
    + exists l. eexists. rewrite lookup_insert_eq.
      split; [done|]. by rewrite !list_lookup_alter_eq, Ht.
    + destruct Hid as [(l0 & t0 & Hact & Ht0 & Hst)|(t1 & [= <-] & Hid)];
        [|done].
      exists l0. rewrite lookup_insert_ne by done.
      destruct (decide (l0 = l)) as [->|Hl].
      * eexists. split; [done|]. by rewrite !list_lookup_alter_eq, Ht.
      * exists t0. by rewrite !list_lookup_alter_ne.
  - rewrite (execute_dangling l s Ht).
    by destruct Hid as [?|(t1 & [=] & _)].
Qed.

Lemma execute_all_retirable order : ∀ s q id,
  quantum_state s = Some q →
  all_routable order s →
  retirable s id ∨
    (∃ l t, l ∈ order ∧ tasks s !! l = Some t ∧ task_id t = id) →
  retirable (final (execute_all order s)) id.
Proof.
  induction order as [|l0 order IH]; intros s q id Hq Hall Hid.
  - destruct Hid as [?|(l & t & Hl & _)]; [done|by apply elem_of_nil in Hl].
  - apply all_routable_cons in Hall as [Hl0 Hall].
    cbn [execute_all]. unfold bind. rewrite (execute_returns l0 s Hl0).
    destruct (execute_advances l0 s q Hq Hl0) as [(Hq1 & _ & Htasks & _) _].
    rewrite Hq in Hq1.
    apply (IH _ q id Hq1); [by apply execute_keeps_routable|].
    destruct Hid as [Hret|(l & t & Hl & Ht & Hid)].
    + left. apply (execute_retirable l0 s q id Hq Hl0). by left.
    + apply elem_of_cons in Hl as [->|Hl].
      * left. apply (execute_retirable l0 s q id Hq Hl0). right. eauto.
      * right. destruct (Htasks l t Ht) as (t1 & Ht1 & Hid1 & _).
        exists l, t1. split; [done|]. split; [done|congruence].
Qed.

(** X3. One round of the loop on a started orchestrator whose queued tasks
    all name a backend empties the queue, completes every task that was
    queued, keeps its result available to [get_task_result] and retires it
    from [active_tasks]; when the round has executed a task, the velocity
    is scaled once. *)
Theorem started_round_completes_and_retires s q :
  quantum_state s = Some q →
  all_routable (task_queue s) s →
  ∃ s',
    orchestration_round s = Returns tt s' ∧
    task_queue s' = [] ∧
    (∀ l t, l ∈ task_queue s → tasks s !! l = Some t →
       (∃ t', tasks s' !! l = Some t' ∧ status t' = "completed") ∧
       completed (get_task_result (task_id t) s') ∧
       active_tasks s' !! task_id t = None ∧
       quantum_state s' = Some (scale_velocity q)).
Proof.
  intros Hq Hall.
  set (s1 := set_task_queue [] (final (execute_all (task_queue s) s))).
  destruct (execute_all_advances (task_queue s) s q Hq Hall)
    as [(Hq1 & _ & _ & _) Hdone].
  assert (Hqs1 : quantum_state s1 = Some q) by (simpl; congruence).
  set (s2 := if decide (0 < size (active_tasks s1))
             then set_quantum_state (Some (scale_velocity q)) s1 else s1).
  assert (Hupdate : _update_quantum_state s1 = Returns tt s2).
  { unfold s2. case_decide.
    - by apply event_busy.
    - apply event_idle. lia. }
  assert (Hsame : tasks s2 = tasks s1 ∧ active_tasks s2 = active_tasks s1 ∧
                  result_store s2 = result_store s1 ∧ task_queue s2 = []).
  { unfold s2. by case_decide. }
  destruct Hsame as (Htasks2 & Hact2 & Hres2 & Hqueue2).
  eexists. split.
  { unfold orchestration_round, try_except. unfold bind at 1.
    rewrite (process_routable s Hall). unfold dequeue_order.
    rewrite Queue_drain_all.
    fold s1. unfold bind at 1. rewrite Hupdate.
    unfold _evolve_consciousness. unfold bind at 1. unfold ret at 1.
    rewrite cleanup_outcome. reflexivity. }
  split; [done|].
  intros l t Hl Ht.
  destruct (Hdone l t Hl Ht) as (t' & Ht' & Hst' & _ & Hres').
  assert (Hret : retirable s1 (task_id t)).
  { apply (execute_all_retirable (task_queue s) s q (task_id t) Hq Hall).
    right. eauto. }
  destruct Hret as (l0 & t0 & Hact0 & Ht0 & Hst0).
  simpl in Hact0, Ht0.
  split; [|split; [|split]].
  - exists t'. simpl. by rewrite Htasks2.
  - unfold get_task_result. simpl. by rewrite Hres2.
  - simpl. rewrite foldl_delete_lookup, decide_True; [done|].
    apply cleanup_keys. exists l0. rewrite Hact2. split; [done|].
    unfold terminal. rewrite Htasks2. simpl. rewrite Ht0.
    apply bool_decide_eq_true. by left.
  - simpl. unfold s2. rewrite decide_True; [done|].
    destruct (decide (size (active_tasks s1) = 0)) as [Hz|Hz]; [|lia].
    apply map_size_empty_inv in Hz. simpl in Hz.
    rewrite Hz, lookup_empty in Hact0. done.
Qed.

Lemma started_round_completes_and_retires_witness :
  ∃ q, quantum_state queued = Some q ∧
  ∃ s',
    orchestration_round queued = Returns tt s' ∧
    task_queue s' = [] ∧
    (∀ l t, l ∈ task_queue queued → tasks queued !! l = Some t →
       (∃ t', tasks s' !! l = Some t' ∧ status t' = "completed") ∧
       completed (get_task_result (task_id t) s') ∧
       active_tasks s' !! task_id t = None ∧
       quantum_state s' = Some (scale_velocity q)).
Proof.
  eexists. split; [reflexivity|].
  apply (started_round_completes_and_retires queued); [reflexivity|].
  intros l t Hl Ht. apply list_elem_of_singleton in Hl as ->.
  injection Ht as <-. by eexists.
Defined.

Lemma execute_other_tasks l s l' :
  l' ≠ l → tasks (final (_execute_ai_task l s)) !! l' = tasks s !! l'.
Proof.
  intros Hne. destruct (tasks s !! l) as [t|] eqn:Ht.
  - destruct (model_preference t) as [m|] eqn:Hm.
    + assert (Hroutable : routable t) by (by exists m).
      destruct (quantum_state s) as [q|] eqn:Hq.
      * destruct (execute_started l s t q Ht Hroutable Hq) as [r ->].
        simpl. by rewrite !list_lookup_alter_ne.
      * destruct (execute_unstarted l s t Ht Hroutable Hq)
          as (msg & at_ & now & ->).
        simpl. by rewrite !list_lookup_alter_ne.
    + by rewrite (execute_unroutable l s t Ht Hm).
  - by rewrite (execute_dangling l s Ht).
Qed.

(** Execution stores a result under the identifier of the executed task
    and under no other. *)
Lemma execute_other_results l s id :
  (∀ t, tasks s !! l = Some t → task_id t ≠ id) →
  result_store (final (_execute_ai_task l s)) !! id = result_store s !! id.
Proof.
  intros Hid. destruct (tasks s !! l) as [t|] eqn:Ht.
  - specialize (Hid t eq_refl).
    destruct (model_preference t) as [m|] eqn:Hm.
    + assert (Hroutable : routable t) by (by exists m).
      destruct (quantum_state s) as [q|] eqn:Hq.
      * destruct (execute_started l s t q Ht Hroutable Hq) as [r ->].
        simpl. by rewrite lookup_insert_ne.
      * destruct (execute_unstarted l s t Ht Hroutable Hq)
          as (msg & at_ & now & ->).
        simpl. by rewrite lookup_insert_ne.
    + by rewrite (execute_unroutable l s t Ht Hm).
  - by rewrite (execute_dangling l s Ht).
Qed.

Lemma execute_all_other_tasks order : ∀ s bad,
  bad ∉ order →
  tasks (final (execute_all order s)) !! bad = tasks s !! bad.
Proof.
  induction order as [|l order IH]; intros s bad Hbad; [done|].
  apply not_elem_of_cons in Hbad as [Hne Hbad].
  cbn [execute_all]. rewrite final_bind.
  pose proof (execute_other_tasks l s bad Hne) as Htasks.
  destruct (_execute_ai_task l s) as [a s1|e s1]; cbn [final] in Htasks.
  - by rewrite IH.
  - done.
Qed.

Lemma execute_all_other_results order : ∀ s id,
  (∀ l t, l ∈ order → tasks s !! l = Some t → task_id t ≠ id) →
  result_store (final (execute_all order s)) !! id = result_store s !! id.
Proof.
  induction order as [|l order IH]; intros s id Hid; [done|].
  cbn [execute_all]. rewrite final_bind.
  assert (Hres : result_store (final (_execute_ai_task l s)) !! id =
                 result_store s !! id).
  { apply execute_other_results. intros t Ht. apply (Hid l t); [left|done]. }
  pose proof (execute_task_objects l s) as Hobj.
  destruct (_execute_ai_task l s) as [a s1|e s1]; cbn [final] in Hres, Hobj.
  - rewrite IH; [done|]. intros l' t1 Hin Ht1.
    destruct (Hobj l' t1 Ht1) as (t & Ht & -> & _).
    apply (Hid l' t); [by right|done].
  - done.
Qed.

(** The queue up to its first task without a model preference is
    executed; that task raises and what is behind it stays queued. *)
Lemma execute_all_stalls good : ∀ s bad t rest,
  all_routable good s →
  tasks s !! bad = Some t →
  model_preference t = None →
  execute_all (good ++ bad :: rest) s =
    Raises (AttributeError "'NoneType' object has no attribute 'value'")
      (final (execute_all good s)) ∧
  left_behind (good ++ bad :: rest) s = rest.
Proof.
  induction good as [|l good IH]; intros s bad t rest Hall Ht Hm.
  - cbn [app execute_all left_behind]. unfold bind.
    by rewrite (execute_unroutable bad s t Ht Hm).
  - assert (Hne : bad ≠ l).
    { intros ->. destruct (Hall l t) as [m Hm']; [left|done|congruence]. }
    apply all_routable_cons in Hall as [Hl Hall].
    cbn [app execute_all left_behind]. unfold bind.
    rewrite (execute_returns l s Hl).
    apply (IH _ bad t rest); [by apply execute_keeps_routable| |done].
    by rewrite execute_other_tasks.
Qed.

(** X15. A queued task without a model preference stalls the round it is
    dequeued in, on a started orchestrator.  The tasks in front of it are
    completed and their results stored; the task itself makes
    [_process_task_queue] raise: it has left the queue, its object is
    untouched and this execution stores no result for it.  The handler of
    the loop catches the exception and the round returns, but the rest of
    the round is skipped: the velocity is not scaled and the completed
    tasks stay in [active_tasks].  What was behind the task is still
    queued, in order, for the next round. *)
Theorem unrouted_task_stalls_round s q good bad t rest :
  quantum_state s = Some q →
  task_queue s = good ++ bad :: rest →
  all_routable good s →
  tasks s !! bad = Some t →
  model_preference t = None →
  ∃ s',
    _process_task_queue s =
      Raises (AttributeError "'NoneType' object has no attribute 'value'") s' ∧
    orchestration_round s = Returns tt s' ∧
    is_running s' = is_running s ∧
    task_queue s' = rest ∧
    tasks s' !! bad = Some t ∧
    ((∀ l t0, l ∈ good → tasks s !! l = Some t0 → task_id t0 ≠ task_id t) →
     get_task_result (task_id t) s' = get_task_result (task_id t) s) ∧
    (∀ l t0, l ∈ good → tasks s !! l = Some t0 →
       (∃ t', tasks s' !! l = Some t' ∧ status t' = "completed") ∧
       completed (get_task_result (task_id t0) s') ∧
       retirable s' (task_id t0)) ∧
    quantum_state s' = Some q.
Proof.
  intros Hq Hqueue Hall Ht Hm.
  assert (Hbad : bad ∉ good).
  { intros Hin. destruct (Hall bad t Hin Ht) as [m Hm']. congruence. }
  destruct (execute_all_stalls good s bad t rest Hall Ht Hm) as [Hexec Hleft].
  assert (Hprocess : _process_task_queue s =
    Raises (AttributeError "'NoneType' object has no attribute 'value'")
      (set_task_queue rest (final (execute_all good s)))).
  { rewrite process_outcome. unfold dequeue_order.
    rewrite Queue_drain_all, Hqueue, Hexec, Hleft. done. }
  destruct (execute_all_advances good s q Hq Hall)
    as [(Hq1 & _ & _ & _) Hdone].
  eexists. split; [exact Hprocess|].
  split.
  { unfold orchestration_round, try_except. unfold bind at 1.
    by rewrite Hprocess. }
  split; [apply execute_all_keeps_running|].
  split; [done|].
  split.
  { cbn [tasks set_task_queue].
    by rewrite (execute_all_other_tasks good s bad Hbad). }
  split.
  { intros Hid. unfold get_task_result. cbn [result_store set_task_queue].
    by rewrite (execute_all_other_results good s (task_id t) Hid). }
  split; [|simpl; congruence].
  intros l t0 Hl Ht0.
  destruct (Hdone l t0 Hl Ht0) as (t' & Ht' & Hst' & _ & Hres').
  split; [by exists t'|]. split; [exact Hres'|].
  apply (execute_all_retirable good s q (task_id t0) Hq Hall).
  right. eauto.
Qed.

Lemma unrouted_task_stalls_round_witness :
  ∃ q, quantum_state mixed_queue = Some q ∧
  ∃ s',
    _process_task_queue mixed_queue =
      Raises (AttributeError "'NoneType' object has no attribute 'value'") s' ∧
    orchestration_round mixed_queue = Returns tt s' ∧
    is_running s' = is_running mixed_queue ∧
    task_queue s' = [2] ∧
    tasks s' !! 1 = Some unrouted_task ∧
    ((∀ l t0, l ∈ [0] → tasks mixed_queue !! l = Some t0 →
              task_id t0 ≠ task_id unrouted_task) →
     get_task_result (task_id unrouted_task) s' =
       get_task_result (task_id unrouted_task) mixed_queue) ∧
    (∀ l t0, l ∈ [0] → tasks mixed_queue !! l = Some t0 →
       (∃ t', tasks s' !! l = Some t' ∧ status t' = "completed") ∧
       completed (get_task_result (task_id t0) s') ∧
       retirable s' (task_id t0)) ∧
    quantum_state s' = Some q.
Proof.
  eexists. split; [reflexivity|].
  apply (unrouted_task_stalls_round mixed_queue _ [0] 1 unrouted_task [2]);
    [reflexivity|reflexivity| |reflexivity|reflexivity].
  intros l t Hl Ht. apply list_elem_of_singleton in Hl as ->.
  injection Ht as <-. by eexists.
Defined.

(** X4. A round of the loop on an orchestrator with an empty queue and no
    active task changes nothing, whether or not it was started. *)
Theorem idle_round_changes_nothing s :
  task_queue s = [] → active_tasks s = ∅ →
  orchestration_round s = Returns tt s.
Proof.
  intros Hqueue Hactive. destruct s as [qu rs act qs run h c d].
  simpl in Hqueue, Hactive. subst qu act.
  unfold orchestration_round, try_except. unfold bind at 1.
  rewrite process_outcome. unfold dequeue_order. simpl.
  unfold bind at 1. rewrite event_idle by (simpl; apply map_size_empty).
  unfold _evolve_consciousness. unfold bind at 1. unfold ret at 1.
  rewrite cleanup_outcome. simpl. by rewrite map_to_list_empty.
Qed.

Lemma idle_round_changes_nothing_witness :
  orchestration_round __init__ = Returns tt __init__.
Proof. apply (idle_round_changes_nothing __init__); reflexivity. Defined.



Lemma started_running s0 : StateVector.started s0 → is_running s0 = true.
Proof.
  intros [s Hs]. unfold start_orchestrator in Hs. revert Hs. py_run.
  by intros [= <-].
Qed.

Lemma drifted_by_succ n now now' q :
  drifted_by n now (drift now' q) = drifted_by (S n) now q.
Proof.
  unfold drifted_by. cbn [consciousness_level quantum_coherence
    neural_activity memory_coherence learning_velocity state_id drift].
  rewrite regulate_all, <-map_fmap_compose.
  f_equal.
  - exact (eq_sym (Nat.iter_succ_r n StateVector.awareness_step
                     (consciousness_level q))).
  - exact (eq_sym (Nat.iter_succ_r n StateVector.coherence_step
                     (quantum_coherence q))).
  - apply map_fmap_ext. intros region v _.
    exact (eq_sym (Nat.iter_succ_r n homeostatic v)).
Qed.

Lemma monitor_round_outcome s q :
  quantum_state s = Some q →
  monitor_round s =
  Returns tt (set_quantum_state (Some (drift (clock s) q))
                (set_clock (S (clock s)) s)).
Proof.
  intros Hq. unfold monitor_round, try_except. unfold bind at 1.
  by rewrite (tick_outcome s q Hq).
Qed.

Lemma monitor_loop_step n s s1 :
  is_running s = true → monitor_round s = Returns tt s1 →
  _consciousness_monitor_loop (S n) s = _consciousness_monitor_loop n s1.
Proof.
  intros Hrun Hround. cbn [_consciousness_monitor_loop].
  unfold bind at 1. unfold get at 1. rewrite Hrun.
  unfold bind at 1. by rewrite Hround.
Qed.

(** The monitor loop is a sequence of timer updates. *)
Lemma monitor_loop_outcome n : ∀ s q,
  is_running s = true → quantum_state s = Some q →
  ∃ s',
    _consciousness_monitor_loop (S n) s = Returns tt s' ∧
    is_running s' = true ∧
    quantum_state s' = Some (drifted_by (S n) (clock s + n) q).
Proof.
  induction n as [|n IH]; intros s q Hrun Hq.
  - rewrite (monitor_loop_step 0 s _ Hrun (monitor_round_outcome s q Hq)).
    eexists. split; [reflexivity|]. split; [done|]. simpl.
    rewrite Nat.add_0_r. f_equal. unfold drifted_by, drift. simpl.
    f_equal. by rewrite regulate_all.
  - rewrite (monitor_loop_step (S n) s _ Hrun (monitor_round_outcome s q Hq)).
    set (s1 := set_quantum_state (Some (drift (clock s) q))
                 (set_clock (S (clock s)) s)).
    destruct (IH s1 (drift (clock s) q)) as (s' & Hloop & Hrun' & Hq');
      [done|done|].
    exists s'. split; [exact Hloop|]. split; [done|].
    rewrite Hq', drifted_by_succ. simpl.
    by replace (S (clock s + n)) with (clock s + S n) by lia.
Qed.

Lemma channel_fixed x0 :
  x0 ∈ [0.6%float; 0.4%float; 0.3%float; 0.8%float] →
  homeostatic (Nat.iter 3163 homeostatic x0) = Nat.iter 3163 homeostatic x0 ∧
  stalled (Nat.iter 3163 homeostatic x0) = true.
Proof.
  intros Hx0. repeat (apply elem_of_cons in Hx0 as [->|Hx0]);
    [| | | |by apply elem_of_nil in Hx0];
    split; vm_compute; reflexivity.
Qed.

(** X6. From the start, 3163 rounds of the monitor loop bring the state
    vector to a fixed point of the timer update: awareness and coherence
    are exactly 1.0, every activity channel has stalled next to 0.5
    without reaching it, and from then on a timer update changes the time
    stamp only. *)
Theorem monitor_reaches_fixed_point s0 n :
  StateVector.started s0 → 3163 ≤ n →
  ∃ s q,
    _consciousness_monitor_loop n s0 = Returns tt s ∧
    quantum_state s = Some q ∧
    consciousness_level q = 1%float ∧
    quantum_coherence q = 1%float ∧
    (∀ region v, neural_activity q !! region = Some v → stalled v = true) ∧
    (∀ now, drift now q = stamped now q).
Proof.
  intros Hstart Hn.
  destruct (started_state s0 Hstart) as (now0 & id0 & Hq0).
  destruct n as [|n]; [lia|].
  destruct (monitor_loop_outcome n s0 _ (started_running s0 Hstart) Hq0)
    as (s & Hloop & _ & Hq).
  exists s. eexists. split; [exact Hloop|]. split; [exact Hq|].
  assert (Haw : Nat.iter (S n) StateVector.awareness_step 0.7%float =
                Nat.iter 3163 StateVector.awareness_step 0.7%float).
  { apply iter_stable; [vm_compute; reflexivity|lia]. }
  assert (Hco : Nat.iter (S n) StateVector.coherence_step 0.8%float =
                Nat.iter 3163 StateVector.coherence_step 0.8%float).
  { apply iter_stable; [vm_compute; reflexivity|lia]. }
  assert (Hch : ∀ region x0,
             initial_neural_activity !! region = Some x0 →
             Nat.iter (S n) homeostatic x0 = Nat.iter 3163 homeostatic x0).
  { intros region x0 Hx0. apply iter_stable; [|lia].
    apply channel_fixed. eapply initial_channel, Hx0. }
  unfold drifted_by. cbn [consciousness_level quantum_coherence
    neural_activity memory_coherence learning_velocity state_id].
  split; [rewrite Haw; vm_compute; reflexivity|].
  split; [rewrite Hco; vm_compute; reflexivity|].
  split.
  - intros region v. rewrite lookup_fmap.
    destruct (initial_neural_activity !! region) as [x0|] eqn:Hx0; [|done].
    intros Hv.
    assert (v = Nat.iter (S n) homeostatic x0) as ->
      by (symmetry; exact (Some_inj _ _ Hv)).
    rewrite (Hch region x0 Hx0).
    apply channel_fixed. eapply initial_channel, Hx0.
  - intros now. unfold drift, stamped.
    cbn [consciousness_level quantum_coherence neural_activity
      memory_coherence learning_velocity state_id].
    rewrite regulate_all. f_equal.
    + rewrite Haw. vm_compute. reflexivity.
    + rewrite Hco. vm_compute. reflexivity.
    + apply map_eq. intros region. rewrite !lookup_fmap.
      destruct (initial_neural_activity !! region) as [x0|] eqn:Hx0; [|done].
      change (Some (homeostatic (Nat.iter (S n) homeostatic x0)) =
              Some (Nat.iter (S n) homeostatic x0)).
      f_equal. rewrite (Hch region x0 Hx0).
      apply channel_fixed. eapply initial_channel, Hx0.
Qed.

Lemma monitor_reaches_fixed_point_witness :
  ∃ s q,
    _consciousness_monitor_loop 3163 StateVector.just_started = Returns tt s ∧
    quantum_state s = Some q ∧
    consciousness_level q = 1%float ∧
    quantum_coherence q = 1%float ∧
    (∀ region v, neural_activity q !! region = Some v → stalled v = true) ∧
    (∀ now, drift now q = stamped now q).
Proof.
  apply (monitor_reaches_fixed_point StateVector.just_started 3163).
  - by exists __init__.
  - lia.
Defined.

Lemma execute_keeps_results l s id :
  is_Some (result_store s !! id) →
  is_Some (result_store (final (_execute_ai_task l s)) !! id).
Proof.
  intros Hid. destruct (tasks s !! l) as [t|] eqn:Ht.
  - destruct (model_preference t) as [m|] eqn:Hm.
    + assert (Hroutable : routable t) by (by exists m).
      destruct (quantum_state s) as [q|] eqn:Hq.
      * destruct (execute_started l s t q Ht Hroutable Hq) as [r ->]. simpl.
        rewrite lookup_insert. by case_decide.
      * destruct (execute_unstarted l s t Ht Hroutable Hq)
          as (msg & at_ & now & ->).
        simpl. rewrite lookup_insert. by case_decide.
    + by rewrite (execute_unroutable l s t Ht Hm).
  - by rewrite (execute_dangling l s Ht).
Qed.

Lemma execute_all_keeps_results order : ∀ s id,
  is_Some (result_store s !! id) →
  is_Some (result_store (final (execute_all order s)) !! id).
Proof.
  induction order as [|l order IH]; intros s id Hid; [done|].
  cbn [execute_all]. rewrite final_bind.
  pose proof (execute_keeps_results l s id Hid) as Hres.
  destruct (_execute_ai_task l s) as [a s1|e s1]; [|done].
  by apply IH.
Qed.

Lemma round_keeps_results s id :
  is_Some (result_store s !! id) →
  ∃ s', orchestration_round s = Returns tt s' ∧
        is_running s' = is_running s ∧
        is_Some (result_store s' !! id).
Proof.
  intros Hid. unfold orchestration_round, try_except. unfold bind at 1.
  rewrite process_outcome.
  pose proof (execute_all_keeps_results (dequeue_order s) s id Hid) as Hres.
  pose proof (execute_all_keeps_running (dequeue_order s) s) as Hrun.
  destruct (execute_all (dequeue_order s) s) as [[] s1|e s1];
    cbn [with_queue final] in *.
  - destruct s1 as [? ? a [q|] ? ? ? ?]; simpl in Hres, Hrun; subst;
      unfold _update_quantum_state, read_quantum_state, _evolve_consciousness,
        _cleanup_tasks; py_run; case_decide; py_run; eauto.
  - eexists. split; [reflexivity|]. by split.
Qed.

(** X14. The loop never drops a result: a result that is stored under an
    identifier is still answered by [get_task_result] after any number of
    rounds, as it was or replaced by the result of a later task with the
    same identifier. *)
Theorem results_are_never_dropped rounds : ∀ s id,
  is_Some (get_task_result id s) →
  ∃ s', _orchestration_loop rounds s = Returns tt s' ∧
        is_Some (get_task_result id s').
Proof.
  unfold get_task_result.
  induction rounds as [|n IH]; intros s id Hid; [by exists s|].
  cbn [_orchestration_loop]. unfold bind at 1. unfold get at 1.
  destruct (is_running s); [|by exists s].
  unfold bind. destruct (round_keeps_results s id Hid) as (s1 & -> & _ & Hid1).
  by apply IH.
Qed.

Lemma results_are_never_dropped_witness :
  ∃ s', _orchestration_loop 3 (final (start_orchestrator first_failed)) =
          Returns tt s' ∧
        is_Some (get_task_result "A" s').
Proof.
  apply (results_are_never_dropped 3
           (final (start_orchestrator first_failed)) "A").
  vm_compute. eauto.
Defined.

End LifecycleFacts.

(** ** More on routing and request processing *)

Section ServiceFacts.
Import Trinity Service.
Local Open Scope nat_scope.
Local Open Scope list_scope.

(** X7. [_route_request] never changes the state.  With a text prompt, or
    without a prompt, it returns one of the three registered names (claude
    when there is no prompt); with a prompt of any other type it raises the
    AttributeError of the missing [lower]. *)
Theorem route_request_answers data s :
  match dict_get "prompt" data with
  | Some (JStr text) => ∃ nm, nm ∈ names ∧ _route_request data s = Returns nm s
  | None => _route_request data s = Returns "claude" s
  | Some other =>
      _route_request data s =
      Raises (AttributeError
                ("'" +:+ type_name other +:+
                 "' object has no attribute 'lower'")) s
  end.
Proof.
  unfold _route_request, names.
  destruct (dict_get "prompt" data) as [[]|]; py_run; try reflexivity.
  repeat match goal with
         | |- context [if ?b then _ else _] => destruct b
         end;
    eexists; (split; [|reflexivity]); set_solver.
Qed.

Lemma lower_char_idempotent c : lower_char (lower_char c) = lower_char c.
Proof. destruct c as [[] [] [] [] [] [] [] []]; reflexivity. Qed.

Lemma lower_idempotent text : lower (lower text) = lower text.
Proof.
  induction text as [|c text IH]; simpl; [done|].
  by rewrite lower_char_idempotent, IH.
Qed.

Lemma dict_get_with_prompt text data :
  is_Some (dict_get "prompt" data) →
  dict_get "prompt" (with_prompt text data) = Some (JStr text).
Proof.
  induction data as [|[k v] data IH]; intros Hsome.
  - by destruct Hsome.
  - cbn [with_prompt]. destruct (decide (k = "prompt")) as [->|Hne];
      cbn [dict_get].
    + by rewrite decide_True.
    + rewrite decide_False by done. apply IH.
      cbn [dict_get] in Hsome. by rewrite decide_False in Hsome.
Qed.

(** X8. Routing does not depend on letter case: a payload and the same
    payload with its prompt in small letters are routed alike. *)
Theorem routing_ignores_case data text s :
  dict_get "prompt" data = Some (JStr text) →
  _route_request (with_prompt (lower text) data) s = _route_request data s.
Proof.
  intros Hprompt. unfold _route_request.
  rewrite dict_get_with_prompt by (rewrite Hprompt; eauto).
  rewrite Hprompt. py_run. by rewrite lower_idempotent.
Qed.

Lemma routing_ignores_case_witness :
  _route_request
    (with_prompt (lower "Analyze the PLAN")
       [("type", JStr "general"); ("prompt", JStr "Analyze the PLAN")])
    __init__ =
  _route_request
    [("type", JStr "general"); ("prompt", JStr "Analyze the PLAN")] __init__.
Proof.
  apply (routing_ignores_case
           [("type", JStr "general"); ("prompt", JStr "Analyze the PLAN")]
           "Analyze the PLAN" __init__).
  reflexivity.
Defined.

Lemma route_text data :
  text_prompt data = true →
  ∃ nm, nm ∈ names ∧ ∀ s, _route_request data s = Returns nm s.
Proof.
  unfold text_prompt, _route_request, names.
  destruct (dict_get "prompt" data) as [[]|]; try done; intros _; py_run;
    repeat match goal with
           | |- context [if ?b then _ else _] => destruct b
           end;
    eexists; (split; [|reflexivity]); set_solver.
Qed.

Lemma route_other data :
  text_prompt data = false →
  ∃ other,
    dict_get "prompt" data = Some other ∧
    ∀ s, _route_request data s =
         Raises (AttributeError
                   ("'" +:+ type_name other +:+
                    "' object has no attribute 'lower'")) s.
Proof.
  unfold text_prompt, _route_request.
  destruct (dict_get "prompt" data) as [[]|]; try done; intros _;
    eexists; (split; [reflexivity|]); intros s; reflexivity.
Qed.

Lemma alter_twice {A} (f g : A → A) i (l : list A) :
  alter f i (alter g i l) = alter (f ∘ g) i l.
Proof.
  revert i. induction l as [|x l IH]; intros [|i]; simpl; [done..|].
  f_equal. apply IH.
Qed.

Lemma resume_outcome p s l :
  agents s !! agent_name p = Some l →
  text_prompt (request_data p) = true →
  ∃ prompt,
    process_request_resume p s =
    Returns
      (mkResponse (agent_name p) (response_text (agent_name p) prompt)
         (clock s) 0.5 0.95
         (take 2 (default [] (capabilities <$> objects s !! l))))
      (mkOrchestrator (agents s)
         (incr_total_processed (consciousness_state s))
         (<[pending_key p :=
              mkResponse (agent_name p)
                (response_text (agent_name p) prompt) (clock s) 0.5 0.95
                (take 2 (default [] (capabilities <$> objects s !! l)))]>
            (response_cache s))
         (alter (with_status ONLINE) (agent_ref p)
            (alter incr_processed_requests (agent_ref p) (objects s)))
         (log s ++
          [(INFO, "Request " +:+ pretty (request_id p) +:+
                  " processed by " +:+ agent_name p)])
         (S (clock s)) (draws s)).
Proof.
  intros Hagent Htext. destruct s as [ag cs cache objs lg c d].
  simpl in Hagent.
  unfold process_request_resume, _generate_response, update_agent, logger,
    datetime_now, text_prompt in *.
  py_run. rewrite Hagent.
  destruct (dict_get "prompt" (request_data p)) as [[]|]; try done;
    eexists; reflexivity.
Qed.

Lemma alter_last {A} (f : A → A) (l : list A) x :
  alter f (length l) (l ++ [x]) = l ++ [f x].
Proof. induction l as [|y l IH]; simpl; [done|]. f_equal. apply IH. Qed.

Lemma initialize_agent_outcome nm ty caps s :
  initialize_agent (nm, ty, caps) s =
  Returns tt
    (mkOrchestrator (<[nm := length (objects s)]> (agents s))
       (consciousness_state s) (response_cache s)
       (objects s ++ [mkTrinityAgent nm ty ONLINE (S (clock s)) 0 0 caps])
       (log s ++ [(INFO, upper nm +:+ " agent: ONLINE")])
       (S (S (clock s))) (draws s)).
Proof.
  destruct s as [ag cs cache objs lg c d].
  unfold initialize_agent, update_agent, logger, datetime_now. py_run.
  by rewrite !alter_last.
Qed.

Lemma initialize_agents_outcome s :
  initialize_agents s =
  Returns tt
    (mkOrchestrator
       (<["perplexity" := S (S (length (objects s)))]>
          (<["gemini" := S (length (objects s))]>
             (<["claude" := length (objects s)]> (agents s))))
       (with_active_agents
          (Z.of_nat
             (size (<["perplexity" := S (S (length (objects s)))]>
                      (<["gemini" := S (length (objects s))]>
                         (<["claude" := length (objects s)]> (agents s))))))
          (consciousness_state s))
       (response_cache s)
       (objects s ++
        [mkTrinityAgent "claude" "strategic_reasoning" ONLINE
           (S (clock s)) 0 0
           ["analysis"; "reasoning"; "code_generation"; "strategic_planning"];
         mkTrinityAgent "gemini" "creative_synthesis" ONLINE
           (S (S (S (clock s)))) 0 0
           ["creativity"; "multimodal"; "synthesis"; "innovation"];
         mkTrinityAgent "perplexity" "knowledge_integration" ONLINE
           (S (S (S (S (S (clock s)))))) 0 0
           ["search"; "fact_checking"; "knowledge_synthesis"; "research"]])
       (log s ++
        [(INFO,
          "Initializing Trinity AI agents with Manhattan Project protocols");
         (INFO, upper "claude" +:+ " agent: ONLINE");
         (INFO, upper "gemini" +:+ " agent: ONLINE");
         (INFO, upper "perplexity" +:+ " agent: ONLINE");
         (INFO, "Trinity AI orchestration: FULLY OPERATIONAL")])
       (S (S (S (S (S (S (clock s))))))) (draws s)).
Proof.
  unfold initialize_agents, agent_configs. cbn [for_each].
  unfold bind at 1. unfold logger at 1. unfold modify at 1.
  unfold bind at 1. unfold bind at 1. rewrite initialize_agent_outcome.
  unfold bind at 1. rewrite initialize_agent_outcome.
  unfold bind at 1. rewrite initialize_agent_outcome.
  unfold ret at 1. unfold bind at 1. unfold modify at 1.
  unfold logger, modify. simpl.
  rewrite !length_app. simpl. rewrite !Nat.add_1_r, <-!app_assoc. simpl.
  reflexivity.
Qed.

(** X13. [initialize_agents] registers claude, gemini and perplexity, each
    with a new agent object that is ONLINE with both counters at zero, and
    sets the number of active agents to the size of the registry.  Other
    registry entries, the objects that were there, the global counter of
    processed requests and the cache are kept: initialising again gives
    the three names new objects with their counters back at zero while the
    global counter keeps its value. *)
Theorem initialize_agents_registers s :
  ∃ s',
    initialize_agents s = Returns tt s' ∧
    (∀ nm, nm ∈ names →
       ∃ l a, agents s' !! nm = Some l ∧ objects s' !! l = Some a ∧
              length (objects s) ≤ l ∧ name a = nm ∧ status a = ONLINE ∧
              processed_requests a = 0%Z ∧ error_count a = 0%Z) ∧
    (∀ nm, nm ∉ names → agents s' !! nm = agents s !! nm) ∧
    (∀ l, l < length (objects s) → objects s' !! l = objects s !! l) ∧
    active_agents (consciousness_state s') = Z.of_nat (size (agents s')) ∧
    total_processed (consciousness_state s') =
      total_processed (consciousness_state s) ∧
    response_cache s' = response_cache s.
Proof.
  eexists. split; [apply initialize_agents_outcome|]. simpl.
  split; [|split; [|split; [|done]]].
  - unfold names. intros nm Hnm.
    repeat (apply elem_of_cons in Hnm as [->|Hnm]);
      [| | |by apply elem_of_nil in Hnm].
    + exists (length (objects s)). eexists.
      rewrite lookup_insert_ne, lookup_insert_ne, lookup_insert_eq by done.
      split; [done|].
      rewrite lookup_app_r, Nat.sub_diag by lia. simpl. done.
    + exists (S (length (objects s))). eexists.
      rewrite lookup_insert_ne, lookup_insert_eq by done.
      split; [done|].
      rewrite lookup_app_r by lia.
      replace (S (length (objects s)) - length (objects s)) with 1 by lia.
      simpl. repeat split; lia.
    + exists (S (S (length (objects s)))). eexists.
      rewrite lookup_insert_eq. split; [done|].
      rewrite lookup_app_r by lia.
      replace (S (S (length (objects s))) - length (objects s)) with 2
        by lia.
      simpl. repeat split; lia.
  - unfold names. intros nm Hnm.
    rewrite !lookup_insert_ne; [done|..]; intros <-; apply Hnm; set_solver.
  - intros l Hl. by rewrite lookup_app_l.
Qed.

Section Service.

Variable float_repr : float → string.
Variable md5_hexdigest : string → string.

Local Abbreviation key := (cache_key float_repr md5_hexdigest).
Local Abbreviation begin := (process_request_begin float_repr md5_hexdigest).
Local Abbreviation process := (process_request float_repr md5_hexdigest).
Local Abbreviation handle := (handle_ai_request float_repr md5_hexdigest).

Lemma begin_suspends data s nm l :
  response_cache s !! key data = None →
  (∀ s0, _route_request data s0 = Returns nm s0) →
  agents s !! nm = Some l →
  begin data s =
  Returns (Suspended (mkPending (draws s) (key data) nm l data))
    (mkOrchestrator (agents s) (consciousness_state s) (response_cache s)
       (alter (with_last_heartbeat (S (clock s))) l
          (alter (with_status PROCESSING) l (objects s)))
       (log s) (S (S (clock s))) (S (draws s))).
Proof.
  intros Hmiss Hroute Hagent. destruct s as [ag cs cache objs lg c d].
  simpl in Hmiss, Hagent.
  unfold process_request_begin, uuid4, datetime_now, logger, update_agent.
  py_run. rewrite Hmiss, Hroute, Hagent. reflexivity.
Qed.

Lemma begin_raises data s e s0 :
  begin data s = Raises e s0 →
  response_cache s !! key data = None ∧
  s0 = set_clock (S (clock s)) (set_draws (S (draws s)) s) ∧
  ((text_prompt data = false ∧
    ∃ other, dict_get "prompt" data = Some other ∧
             e = AttributeError
                   ("'" +:+ type_name other +:+
                    "' object has no attribute 'lower'")) ∨
   (∃ nm, nm ∈ names ∧ agents s !! nm = None)).
Proof.
  unfold process_request_begin, uuid4, datetime_now, logger, update_agent.
  py_run.
  destruct (response_cache s !! key data) eqn:Hlook; [done|].
  destruct (text_prompt data) eqn:Htext.
  - destruct (route_text data Htext) as (nm & Hnm & Hroute).
    rewrite Hroute. destruct (agents s !! nm) eqn:Hagent; [done|].
    intros [= <- <-]. split; [done|]. split; [done|]. right. eauto.
  - destruct (route_other data Htext) as (other & Hother & Hroute).
    rewrite Hroute. intros [= <- <-].
    split; [done|]. split; [done|]. left. eauto.
Qed.

Lemma begin_fails data s e :
  response_cache s !! key data = None →
  (∀ s0, _route_request data s0 = Raises e s0) →
  begin data s =
  Raises e (set_clock (S (clock s)) (set_draws (S (draws s)) s)).
Proof.
  intros Hmiss Hroute.
  unfold process_request_begin, uuid4, datetime_now, logger, update_agent.
  py_run. by rewrite Hmiss, Hroute.
Qed.

Lemma process_miss_outcome data s nm l :
  response_cache s !! key data = None →
  (∀ s0, _route_request data s0 = Returns nm s0) →
  agents s !! nm = Some l →
  ∃ prompt,
    process data s =
    Returns
      (mkResponse nm (response_text nm prompt) (S (S (clock s))) 0.5 0.95
         (take 2 (default [] (capabilities <$> objects s !! l))))
      (mkOrchestrator (agents s)
         (incr_total_processed (consciousness_state s))
         (<[key data :=
              mkResponse nm (response_text nm prompt) (S (S (clock s)))
                0.5 0.95
                (take 2 (default [] (capabilities <$> objects s !! l)))]>
            (response_cache s))
         (alter (served (S (clock s))) l (objects s))
         (log s ++
          [(INFO, "Request " +:+ pretty (draws s) +:+
                  " processed by " +:+ nm)])
         (S (S (S (clock s)))) (S (draws s))).
Proof.
  intros Hmiss Hroute Hagent.
  assert (Htext : text_prompt data = true).
  { destruct (text_prompt data) eqn:Htext; [done|].
    destruct (route_other data Htext) as (other & _ & Hraise).
    specialize (Hraise s). by rewrite Hroute in Hraise. }
  unfold process_request. unfold bind at 1.
  rewrite (begin_suspends data s nm l Hmiss Hroute Hagent).
  set (p := mkPending (draws s) (key data) nm l data).
  set (s1 := mkOrchestrator _ _ _ _ _ _ _).
  destruct (resume_outcome p s1 l Hagent Htext) as [prompt Hresume].
  exists prompt. rewrite Hresume. unfold s1, p. simpl.
  rewrite !list_lookup_alter_eq, !alter_twice.
  assert (Hcaps :
    default []
      (capabilities <$>
         (with_last_heartbeat (S (clock s)) <$>
            (with_status PROCESSING <$> objects s !! l))) =
    default [] (capabilities <$> objects s !! l))
    by (by destruct (objects s !! l)).
  rewrite Hcaps. reflexivity.
Qed.

(** X9. On a server whose agents are registered the handler always
    answers.  A cached fingerprint gives 200 with the cached value.
    Otherwise a payload whose prompt is text, or absent, gives 200 with a
    fresh response of a registered agent, which is then in the cache; and a
    payload with a prompt of another type gives 500 with the text of the
    AttributeError, and no agent, counter or cache entry has changed. *)
Theorem handler_always_answers data s :
  registered s →
  ∃ code body s',
    handle data s = Returns (code, body) s' ∧
    match response_cache s !! key data with
    | Some cached => code = 200 ∧ body = inl cached
    | None =>
        if text_prompt data
        then code = 200 ∧
             ∃ r, body = inl r ∧ agent r ∈ names ∧
                  response_cache s' !! key data = Some r
        else code = 500 ∧
             (∃ other,
                dict_get "prompt" data = Some other ∧
                body = inr ("'" +:+ type_name other +:+
                            "' object has no attribute 'lower'")) ∧
             objects s' = objects s ∧
             response_cache s' = response_cache s ∧
             consciousness_state s' = consciousness_state s
    end.
Proof.
  intros Hreg. unfold handle_ai_request, try_except. unfold bind at 1.
  destruct (response_cache s !! key data) as [cached|] eqn:Hlook.
  - unfold process_request. unfold bind at 1.
    rewrite (begin_hit float_repr md5_hexdigest data s cached Hlook).
    eexists _, _, _. split; [reflexivity|done].
  - destruct (text_prompt data) eqn:Htext.
    + destruct (route_text data Htext) as (nm & Hnm & Hroute).
      destruct (Hreg nm Hnm) as (l & a & Hagent & _).
      destruct (process_miss_outcome data s nm l Hlook Hroute Hagent)
        as [prompt ->].
      eexists _, _, _. split; [reflexivity|]. split; [done|].
      eexists. split; [done|]. split; [done|]. simpl.
      apply lookup_insert_eq.
    + destruct (route_other data Htext) as (other & Hother & Hroute).
      unfold process_request. unfold bind at 1.
      rewrite (begin_fails data s _ Hlook Hroute).
      eexists _, _, _. split; [reflexivity|]. split; [done|].
      split; [|done]. exists other. done.
Qed.

(** X10. A request that misses the cache and is answered has these
    effects and no others on the books: its agent, and no other, has one
    more processed request, status ONLINE and a new heartbeat; the global
    counter is one higher; the response, which lists the first two
    capabilities of the agent, is stored under the fingerprint. *)
Theorem cache_miss_accounting data s r s' :
  response_cache s !! key data = None →
  process data s = Returns r s' →
  ∃ l,
    agents s !! agent r = Some l ∧
    objects s' = alter (served (S (clock s))) l (objects s) ∧
    total_processed (consciousness_state s') =
      (total_processed (consciousness_state s) + 1)%Z ∧
    response_cache s' = <[key data := r]> (response_cache s) ∧
    agents s' = agents s ∧
    capabilities_used r =
      take 2 (default [] (capabilities <$> objects s !! l)).
Proof.
  intros Hmiss Hprocess.
  destruct (text_prompt data) eqn:Htext.
  - destruct (route_text data Htext) as (nm & Hnm & Hroute).
    destruct (agents s !! nm) as [l|] eqn:Hagent.
    + destruct (process_miss_outcome data s nm l Hmiss Hroute Hagent)
        as [prompt Hout].
      rewrite Hout in Hprocess. injection Hprocess as <- <-.
      exists l. simpl. done.
    + exfalso. revert Hprocess.
      unfold process_request, process_request_begin, uuid4, datetime_now.
      py_run. by rewrite Hmiss, Hroute, Hagent.
  - exfalso. destruct (route_other data Htext) as (other & _ & Hroute).
    revert Hprocess. unfold process_request. unfold bind at 1.
    by rewrite (begin_fails data s _ Hmiss Hroute).
Qed.

Lemma generate_raises nm data s e s1 :
  _generate_response nm data s = Raises e s1 → s1 = s.
Proof.
  unfold _generate_response, datetime_now. py_run.
  destruct (agents s !! nm); [|by intros [= _ <-]].
  destruct (dict_get "prompt" data) as [[]|]; py_run;
    try done; by intros [= _ <-].
Qed.

Lemma resume_raises p s e s' :
  process_request_resume p s = Raises e s' →
  response_cache s' = response_cache s.
Proof.
  unfold process_request_resume, try_except. unfold bind at 1.
  destruct (_generate_response (agent_name p) (request_data p) s)
    as [r s1|e1 s1] eqn:Hgen.
  - unfold update_agent, logger. py_run. done.
  - apply generate_raises in Hgen as ->.
    unfold update_agent, logger. py_run. by intros [= _ <-].
Qed.

Lemma begin_suspended_miss data s p s1 :
  begin data s = Returns (Suspended p) s1 →
  response_cache s !! key data = None.
Proof.
  unfold process_request_begin, uuid4, datetime_now, logger. py_run.
  by destruct (response_cache s !! key data).
Qed.

(** X11. Requests that are processed one at a time never change a cache
    entry: whatever is cached under a fingerprint stays there, as it is,
    whether the next request is answered or raises. *)
Theorem sequential_requests_keep_cache_entries data s k v :
  response_cache s !! k = Some v →
  response_cache (final (process data s)) !! k = Some v.
Proof.
  intros Hk. unfold process_request. unfold bind at 1.
  destruct (begin data s) as [[cached|p] s1|e s1] eqn:Hbegin.
  - apply begin_returns in Hbegin as [Hcache _]. simpl. by rewrite Hcache.
  - pose proof (begin_suspended_miss _ _ _ _ Hbegin) as Hmiss.
    apply begin_returns in Hbegin as [Hcache Hkey].
    destruct (process_request_resume p s1) as [r s2|e s2] eqn:Hresume.
    + apply resume_returns in Hresume as [Hstore _]. simpl.
      rewrite Hstore, Hcache, lookup_insert_ne; [done|].
      intros Heq. rewrite Hkey in Heq. congruence.
    + apply resume_raises in Hresume. simpl. by rewrite Hresume, Hcache.
  - apply begin_raises in Hbegin as (_ & -> & _). done.
Qed.

Lemma ready_agents nm l :
  agents Requests.ready !! nm = Some l → l < 3 ∧ nm ∈ names.
Proof.
  assert (Hready : agents Requests.ready =
                   <["perplexity" := 2]>
                     (<["gemini" := 1]> (<["claude" := 0]> ∅)))
    by (vm_compute; reflexivity).
  rewrite Hready, !lookup_insert, lookup_empty. unfold names.
  repeat case_decide; intros [= <-]; subst; split; try lia; set_solver.
Qed.

Lemma ready_registered_name nm :
  nm ∈ names → ∃ l, agents Requests.ready !! nm = Some l.
Proof.
  unfold names. intros Hnm.
  repeat (apply elem_of_cons in Hnm as [->|Hnm]);
    [| | |by apply elem_of_nil in Hnm];
    eexists; vm_compute; reflexivity.
Qed.

Lemma processed_sum_alter_same f i (objs : list TrinityAgent) :
  (∀ a, processed_requests (f a) = processed_requests a) →
  processed_sum (alter f i objs) = processed_sum objs.
Proof.
  intros Hf. unfold processed_sum. revert i.
  induction objs as [|a objs IH]; intros [|i]; simpl; [done|done| |].
  - by rewrite Hf.
  - f_equal. apply IH.
Qed.

Lemma processed_sum_alter_incr i (objs : list TrinityAgent) :
  i < length objs →
  processed_sum (alter incr_processed_requests i objs) =
  (processed_sum objs + 1)%Z.
Proof.
  unfold processed_sum. revert i.
  induction objs as [|a objs IH]; intros [|i] Hi; simpl in *; [lia|lia| |].
  - lia.
  - apply Nat.succ_lt_mono in Hi. pose proof (IH i Hi) as IHi.
    unfold alter in IHi. lia.
Qed.

Lemma sound_ready : sound (Requests.ready, []).
Proof.
  unfold sound. cbn [fst snd].
  split; [done|]. split; [vm_compute; reflexivity|].
  split; [vm_compute; repeat constructor|].
  split; [vm_compute; reflexivity|]. split; [vm_compute; reflexivity|].
  split; [vm_compute; reflexivity|]. split; [vm_compute; discriminate|].
  constructor.
Qed.

Ltac books :=
  cbn [fst snd final suspended app agents objects consciousness_state
       response_cache log clock draws set_log set_clock set_draws
       awareness_level quantum_coherence total_processed
       incr_total_processed].

Lemma sound_step c c' :
  serve_step float_repr md5_hexdigest c c' → sound c → sound c'.
Proof.
  intros Hstep Hsound. unfold sound in *.
  pose proof ready_registered_name as Hnames.
  pose proof ready_agents as Hrefs.
  remember (agents Requests.ready) as base eqn:Hbase. clear Hbase.
  destruct Hstep as [data s waiting|p s before behind]; cbn [fst snd] in *;
    destruct Hsound
      as (Hagents & Hlen & Hobjs & Haw & Hco & Htotal & Hsize & Hwait).
  - destruct (response_cache s !! key data) as [cached|] eqn:Hlook.
    { rewrite (begin_hit float_repr md5_hexdigest data s cached Hlook).
      books. done. }
    destruct (text_prompt data) eqn:Htext.
    + destruct (route_text data Htext) as (nm & Hnm & Hroute).
      destruct (Hnames nm Hnm) as [l Hl].
      assert (Hagent : agents s !! nm = Some l) by by rewrite Hagents.
      rewrite (begin_suspends data s nm l Hlook Hroute Hagent). books.
      rewrite !length_alter, !processed_sum_alter_same by done.
      split; [done|]. split; [done|].
      split.
      { apply Forall_alter; [apply Forall_alter; [done|]|];
          intros a _ [? ?]; by split. }
      split; [done|]. split; [done|]. split; [done|]. split; [done|].
      constructor; [done|done].
    + destruct (route_other data Htext) as (other & _ & Hroute).
      rewrite (begin_fails data s _ Hlook Hroute). books. done.
  - apply Forall_app in Hwait as [Hbefore Hrest].
    apply Forall_cons in Hrest as [[Htext Href] Hbehind].
    assert (Hagent : agents s !! agent_name p = Some (agent_ref p))
      by by rewrite Hagents.
    destruct (resume_outcome p s _ Hagent Htext) as [prompt ->]. books.
    destruct (Hrefs _ _ Href) as [Hlt _].
    rewrite !length_alter.
    rewrite (processed_sum_alter_same (with_status ONLINE)) by done.
    rewrite processed_sum_alter_incr by lia.
    split; [done|]. split; [done|].
    split.
    { apply Forall_alter; [apply Forall_alter; [done|]|];
        intros a _ [? ?]; by split. }
    split; [done|]. split; [done|].
    split; [by rewrite Htotal|].
    split.
    { rewrite map_size_insert.
      destruct (response_cache s !! pending_key p); simpl; lia. }
    apply Forall_app. by split.
Qed.

Lemma in_service_sound c :
  in_service float_repr md5_hexdigest c → sound c.
Proof.
  unfold in_service. revert c. apply rtc_ind_r.
  - apply sound_ready.
  - intros c c' _ Hstep Hsound. by eapply sound_step.
Qed.

(** X12. However requests overlap, on a server that started with its
    agents initialised the health check reports healthy with all three
    agents serving, no agent has counted an error, the global counter of
    processed requests is the sum of the agents' counters and is not less
    than the number of cache entries, and every waiting request will be
    answered, not raise, when its sleep ends. *)
Theorem service_stays_healthy s waiting start_time :
  in_service float_repr md5_hexdigest (s, waiting) →
  (∃ h s', health_check start_time s = Returns h s' ∧
           health_status h = "healthy" ∧
           agents_online h = 3 ∧ total_agents h = 3) ∧
  Forall (λ a, error_count a = 0%Z) (objects s) ∧
  total_processed (consciousness_state s) = processed_sum (objects s) ∧
  (Z.of_nat (size (response_cache s)) ≤
   total_processed (consciousness_state s))%Z ∧
  (∀ p, p ∈ waiting → ∃ r s', process_request_resume p s = Returns r s').
Proof.
  intros Hserve. apply in_service_sound in Hserve.
  unfold sound in Hserve. cbn [fst snd] in Hserve.
  assert (Hlist : map_to_list (agents Requests.ready) =
                  [("gemini", 1); ("claude", 0); ("perplexity", 2)])
    by (vm_compute; reflexivity).
  assert (Hsize3 : size (agents Requests.ready) = 3)
    by (vm_compute; reflexivity).
  remember (agents Requests.ready) as base eqn:Hbase. clear Hbase.
  destruct Hserve
    as (Hagents & Hlen & Hobjs & Haw & Hco & Htotal & Hsize & Hwait).
  split; [|split; [|split; [|split]]].
  - destruct (objects s) as [|a0 [|a1 [|a2 [|]]]] eqn:Hobj;
      try discriminate Hlen.
    apply Forall_cons in Hobjs as [[H0 _] Hobjs].
    apply Forall_cons in Hobjs as [[H1 _] Hobjs].
    apply Forall_cons in Hobjs as [[H2 _] _].
    assert (Hcount : healthy_agents s = 3).
    { unfold healthy_agents. rewrite Hagents, Hlist, Hobj.
      cbn [List.filter snd lookup list_lookup].
      by rewrite H0, H1, H2. }
    unfold health_check, datetime_now, bind, get, ret.
    rewrite Hcount, Haw, Hco, Hagents, Hsize3.
    eexists _, _. split; [reflexivity|]. by cbn [health_status agents_online
      total_agents].
  - eapply Forall_impl; [exact Hobjs|]. by intros a [_ ?].
  - exact Htotal.
  - exact Hsize.
  - intros p Hp. rewrite Forall_forall in Hwait.
    destruct (Hwait p Hp) as [Htext Href].
    assert (Hagent : agents s !! agent_name p = Some (agent_ref p))
      by by rewrite Hagents.
    destruct (resume_outcome p s _ Hagent Htext) as [prompt ->]. eauto.
Qed.

End Service.

End ServiceFacts.

(** ** The request properties at a concrete server *)

Section ServiceExamples.
Import Trinity Requests Service.
Local Open Scope nat_scope.
Local Open Scope list_scope.

Lemma ready_registered : registered ready.
Proof.
  unfold names. intros nm Hnm.
  repeat (apply elem_of_cons in Hnm as [->|Hnm]);
    [| | |by apply elem_of_nil in Hnm];
    eexists _, _; split; vm_compute; reflexivity.
Qed.

Lemma handler_always_answers_witness :
  ∃ code body s',
    handle_ai_request fixed_repr plain_digest payload ready =
      Returns (code, body) s' ∧
    match response_cache ready !! cache_key fixed_repr plain_digest payload with
    | Some cached => code = 200 ∧ body = inl cached
    | None =>
        if text_prompt payload
        then code = 200 ∧
             ∃ r, body = inl r ∧ agent r ∈ names ∧
                  response_cache s' !! cache_key fixed_repr plain_digest payload
                    = Some r
        else code = 500 ∧
             (∃ other,
                dict_get "prompt" payload = Some other ∧
                body = inr ("'" +:+ type_name other +:+
                            "' object has no attribute 'lower'")) ∧
             objects s' = objects ready ∧
             response_cache s' = response_cache ready ∧
             consciousness_state s' = consciousness_state ready
    end.
Proof.
  exact (handler_always_answers fixed_repr plain_digest payload ready
           ready_registered).
Defined.

Lemma cache_miss_accounting_witness :
  ∃ r l,
    process_request fixed_repr plain_digest payload ready =
      Returns r answered ∧
    agents ready !! agent r = Some l ∧
    objects answered = alter (served (S (clock ready))) l (objects ready) ∧
    total_processed (consciousness_state answered) =
      (total_processed (consciousness_state ready) + 1)%Z ∧
    response_cache answered =
      <[cache_key fixed_repr plain_digest payload := r]>
        (response_cache ready) ∧
    agents answered = agents ready ∧
    capabilities_used r =
      take 2 (default [] (capabilities <$> objects ready !! l)).
Proof.
  assert (Hrun : process_request fixed_repr plain_digest payload ready =
                 Returns
                   (mkResponse "claude"
                      "Claude Strategic Analysis: analyze strategy..."
                      8 0.5 0.95 ["analysis"; "reasoning"])
                   answered)
    by (vm_compute; reflexivity).
  assert (Hmiss : response_cache ready
                    !! cache_key fixed_repr plain_digest payload = None)
    by (vm_compute; reflexivity).
  destruct (cache_miss_accounting fixed_repr plain_digest payload ready
              _ _ Hmiss Hrun) as (l & Hl).
  eexists _, l. split; [exact Hrun|exact Hl].
Defined.

Lemma sequential_requests_keep_cache_entries_witness :
  response_cache
    (final (process_request fixed_repr plain_digest
              [("prompt", JStr "find art")] answered))
    !! cache_key fixed_repr plain_digest payload =
  Some (mkResponse "claude" "Claude Strategic Analysis: analyze strategy..."
          8 0.5 0.95 ["analysis"; "reasoning"]).
Proof.
  apply (sequential_requests_keep_cache_entries fixed_repr plain_digest
           [("prompt", JStr "find art")] answered).
  vm_compute. reflexivity.
Defined.

Lemma both_waiting_in_service :
  in_service fixed_repr plain_digest
    (both_waiting, [second_pending; first_pending]).
Proof.
  assert (H1 : (first_waiting, [first_pending]) =
               (final (process_request_begin fixed_repr plain_digest
                         payload ready),
                suspended (process_request_begin fixed_repr plain_digest
                             payload ready) ++ []))
    by (vm_compute; reflexivity).
  assert (H2 : (both_waiting, [second_pending; first_pending]) =
               (final (process_request_begin fixed_repr plain_digest
                         payload first_waiting),
                suspended (process_request_begin fixed_repr plain_digest
                             payload first_waiting) ++ [first_pending]))
    by (vm_compute; reflexivity).
  unfold in_service.
  apply (rtc_l _ _ (first_waiting, [first_pending])).
  { rewrite H1. apply request_arrives. }
  apply rtc_once. rewrite H2. apply request_arrives.
Qed.

Lemma service_stays_healthy_witness :
  (∃ h s', health_check 0 both_waiting = Returns h s' ∧
           health_status h = "healthy" ∧
           agents_online h = 3 ∧ total_agents h = 3) ∧
  Forall (λ a, error_count a = 0%Z) (objects both_waiting) ∧
  total_processed (consciousness_state both_waiting) =
    processed_sum (objects both_waiting) ∧
  (Z.of_nat (size (response_cache both_waiting)) ≤
   total_processed (consciousness_state both_waiting))%Z ∧
  (∀ p, p ∈ [second_pending; first_pending] →
        ∃ r s', process_request_resume p both_waiting = Returns r s').
Proof.
  exact (service_stays_healthy fixed_repr plain_digest both_waiting
           [second_pending; first_pending] 0 both_waiting_in_service).
Defined.

End ServiceExamples.
